(** * GAME agent core: a shallow embedding of [game/core] and its properties

    The development follows the Python sources
    - [game/core/actions.py]   (Action, ActionRegistry),
    - [game/core/templates.py] (the two default prompt templates),
    - [game/core/agent.py]     (Agent: prompts, execute_action,
                                get_next_action, run_loop),
    - [game/core/llm.py]       (how the two provider classes are called),
    - [game/environments/twitter_env.py] (TwitterEnv: the cached state).

    Python dictionaries keep their insertion order, so they are modelled as
    association lists with one binding per key; [PyDict.view] gives the
    order-free reading as a [gmap].  Effects (the environment, the language
    model, the action handlers) act on an abstract world; the agent's own
    mutable fields are threaded next to it in a small state-and-exception
    monad.

    What the model takes for granted: the collaborators return (with a
    value or an exception), do not reach into the agent's registry or
    history, and leave the values they are handed as they were (a handler
    does not change its arguments in place, nobody changes a result once it
    is stored); [str(e)] of one exception has the same outcome each time it
    is asked for; [print] and [asyncio.sleep] do nothing but log and wait
    (standard output takes every line).  A string is the sequence of its
    code points, which the model keeps below 256. *)

From Stdlib Require Import ZArith Ascii String DecimalString.
From stdpp Require Import base list strings gmap.

Set Warnings "-register-all".
Local Open Scope Z_scope.

(** ** Characters and strings *)

Definition dq : string := String (ascii_of_nat 34) EmptyString.
Definition nl : string := String (ascii_of_nat 10) EmptyString.

Definition ch_lbrace : ascii := ascii_of_nat 123.
Definition ch_rbrace : ascii := ascii_of_nat 125.
Definition ch_lbracket : ascii := ascii_of_nat 91.
Definition ch_rbracket : ascii := ascii_of_nat 93.
Definition ch_colon : ascii := ascii_of_nat 58.
Definition ch_bang : ascii := ascii_of_nat 33.
Definition ch_dot : ascii := ascii_of_nat 46.
Definition ch_squote : ascii := ascii_of_nat 39.
Definition ch_dquote : ascii := ascii_of_nat 34.
Definition ch_backslash : ascii := ascii_of_nat 92.

Definition str1 (c : ascii) : string := String c EmptyString.

(** [sep.join(parts)] *)
Fixpoint py_join (sep : string) (parts : list string) : string :=
  match parts with
  | [] => EmptyString
  | [p] => p
  | p :: rest => p +:+ sep +:+ py_join sep rest
  end.

Definition unlines (ls : list string) : string := py_join nl ls.

Fixpoint str_contains (c : ascii) (s : string) : bool :=
  match s with
  | EmptyString => false
  | String d s' => if Ascii.eqb c d then true else str_contains c s'
  end.

Definition hex_digit (n : nat) : ascii :=
  ascii_of_nat (if Nat.ltb n 10 then 48 + n else 87 + n)%nat.

(** A code point [repr] does not copy: the control characters, the
    no-break space and the soft hyphen. *)
Definition unprintable (n : nat) : bool :=
  Nat.ltb n 32 || (Nat.leb 127 n && Nat.leb n 160) || Nat.eqb n 173.

(** [repr] of a [str]: quote and backslash escaped, tab, newline and
    carriage return by their letters, every other unprintable code point by
    its two hexadecimal digits. *)
Fixpoint repr_body (quote : ascii) (s : string) : string :=
  match s with
  | EmptyString => EmptyString
  | String c s' =>
      let n := nat_of_ascii c in
      (if Ascii.eqb c quote || Ascii.eqb c ch_backslash then
         String ch_backslash (str1 c)
       else if Nat.eqb n 9 then String ch_backslash "t"
       else if Nat.eqb n 10 then String ch_backslash "n"
       else if Nat.eqb n 13 then String ch_backslash "r"
       else if unprintable n then
         String ch_backslash
           (String "x" (String (hex_digit (n / 16)) (str1 (hex_digit (n mod 16)))))
       else str1 c) +:+ repr_body quote s'
  end.

Definition py_repr_str (s : string) : string :=
  let quote :=
    if str_contains ch_squote s && negb (str_contains ch_dquote s)
    then ch_dquote else ch_squote in
  String quote (repr_body quote s +:+ str1 quote).

Definition str_of_Z (z : Z) : string := NilZero.string_of_int (Z.to_int z).

(** ** Exceptions

    The code looks at an exception in three ways only: whether it derives
    from [Exception] (the [except Exception] clauses), whether it is a
    [json.JSONDecodeError], and what [str(e)] gives.  Exceptions raised by
    the agent's own code and by the interpreter have their constructors;
    [Thrown] stands for any other exception object a collaborator raises,
    with its class name, whether the class derives from [Exception]
    (KeyboardInterrupt, SystemExit and asyncio.CancelledError do not) and
    its [str]; [Unprintable] is such an object whose [__str__] raises. *)

Inductive exn : Type :=
  | KeyError (key : string)
  | ValueError (msg : string)
  | TypeError (msg : string)
  | AttributeError (msg : string)
  | IndexError (msg : string)
  | JSONDecodeError (msg : string)
  | Thrown (cls : string) (derives_exception : bool) (text : string)
  | Unprintable (cls : string) (derives_exception : bool) (raised : exn).

(** The outcome of a call: an exception or a value. *)
Definition result (A : Type) : Type := exn + A.

Definition is_Exception (e : exn) : bool :=
  match e with
  | Thrown _ b _ | Unprintable _ b _ => b
  | _ => true
  end.

(** [except json.JSONDecodeError] *)
Definition is_JSONDecodeError (e : exn) : bool :=
  match e with
  | JSONDecodeError _ => true
  | _ => false
  end.

(** [str(e)]: the text, or the exception that [__str__] raises. *)
Definition exn_str (e : exn) : result string :=
  match e with
  | KeyError k => inr (py_repr_str k)
  | ValueError m | TypeError m | AttributeError m | IndexError m
  | JSONDecodeError m => inr m
  | Thrown _ _ t => inr t
  | Unprintable _ _ raised => inl raised
  end.

Definition res_bind {A B} (r : result A) (k : A -> result B) : result B :=
  match r with
  | inl e => inl e
  | inr a => k a
  end.

(** Left-to-right evaluation that stops at the first exception, as a
    generator consumed by [str.join] does. *)
Fixpoint res_mapM {A B} (f : A -> result B) (l : list A) : result (list B) :=
  match l with
  | [] => inr []
  | x :: l' =>
      res_bind (f x) (fun y => res_bind (res_mapM f l') (fun ys => inr (y :: ys)))
  end.

(** ** Python dictionaries with string keys *)

Module PyDict.

Definition t (V : Type) : Type := list (string * V).

Definition empty {V} : t V := [].

(** [d.get(k)] *)
Fixpoint get {V} (d : t V) (k : string) : option V :=
  match d with
  | [] => None
  | (k', v) :: d' => if String.eqb k k' then Some v else get d' k
  end.

(** [d[k] = v]: a present key keeps its position, a new key goes last. *)
Fixpoint set {V} (d : t V) (k : string) (v : V) : t V :=
  match d with
  | [] => [(k, v)]
  | (k', v') :: d' =>
      if String.eqb k k' then (k, v) :: d' else (k', v') :: set d' k v
  end.

(** the dictionary left once [k] is removed *)
Definition remove {V} (d : t V) (k : string) : t V :=
  List.filter (fun kv => negb (String.eqb k (fst kv))) d.

(** [d[k]] *)
Definition getitem {V} (d : t V) (k : string) : result V :=
  match get d k with
  | Some v => inr v
  | None => inl (KeyError k)
  end.

(** [d.pop(k)]: the value and the remaining dictionary *)
Definition pop {V} (d : t V) (k : string) : result (V * t V) :=
  match get d k with
  | Some v => inr (v, remove d k)
  | None => inl (KeyError k)
  end.

(** [d.pop(k, default)] *)
Definition pop_default {V} (d : t V) (k : string) (default : V) : V * t V :=
  match get d k with
  | Some v => (v, remove d k)
  | None => (default, d)
  end.

Definition keys {V} (d : t V) : list string := List.map fst d.

Definition has_key {V} (d : t V) (k : string) : bool :=
  match get d k with Some _ => true | None => false end.

(** [{k: f(k, v) for k, v in d.items()}] *)
Definition map_items {V U} (f : V -> U) (d : t V) : t U :=
  List.map (fun kv => (fst kv, f (snd kv))) d.

(** The order-free reading. *)
Definition view {V} (d : t V) : gmap string V := list_to_map d.

End PyDict.

(** ** Values decoded from JSON

    [json.loads] yields None, bool, int, float, str, list and dict.  A float
    is kept as the text Python prints for it. *)

Inductive json : Type :=
  | JNull
  | JBool (b : bool)
  | JInt (z : Z)
  | JFloat (printed : string)
  | JString (s : string)
  | JList (items : list json)
  | JObject (members : list (string * json)).

Fixpoint py_repr (v : json) : string :=
  match v with
  | JNull => "None"
  | JBool b => if b then "True" else "False"
  | JInt z => str_of_Z z
  | JFloat p => p
  | JString s => py_repr_str s
  | JList items => "[" +:+ py_join ", " (List.map py_repr items) +:+ "]"
  | JObject members =>
      "{" +:+
      py_join ", "
        (List.map (fun kv => py_repr_str (fst kv) +:+ ": " +:+ py_repr (snd kv))
           members) +:+
      "}"
  end.

(** [str(v)], also what an f-string prints for [v] *)
Definition py_str (v : json) : string :=
  match v with
  | JString s => s
  | _ => py_repr v
  end.

(** Lists and dicts cannot be dictionary keys. *)
Definition hashable (v : json) : bool :=
  match v with
  | JList _ | JObject _ => false
  | _ => true
  end.

(** ** [str.format] with keyword arguments only

    The template is scanned once, left to right, as CPython does: literal
    text up to a brace, [{{] and [}}] as escapes, otherwise a replacement
    field [{name!conv:spec}].  A field is scanned to its closing brace first
    and looked up second, and the fields are rendered in order, so the first
    failing field decides the exception.  Every value passed by the prompt
    builders is a [str]; a field that is a plain name prints the value.  What
    an attribute or index suffix, a conversion or a format specification does
    with the value is left to [render]. *)

Inductive fmt_mode : Type :=
  | MText
  | MName (name : string) (in_bracket : bool)
  | MConv (name : string)
  | MConvEnd (name : string) (conv : ascii)
  | MSpec (name : string) (conv : option ascii) (spec : string) (depth : nat).

Definition fmt_render : Type :=
  PyDict.t string -> string -> string -> option ascii -> string -> result string.

Fixpoint split_first (name : string) : string * string :=
  match name with
  | EmptyString => (EmptyString, EmptyString)
  | String c s =>
      if Ascii.eqb c ch_dot || Ascii.eqb c ch_lbracket then (EmptyString, name)
      else let (a, b) := split_first s in (String c a, b)
  end.

Definition is_digit (c : ascii) : bool :=
  let n := nat_of_ascii c in Nat.leb 48 n && Nat.leb n 57.

Fixpoint all_digits (s : string) : bool :=
  match s with
  | EmptyString => true
  | String c s' => is_digit c && all_digits s'
  end.

Fixpoint digits_value (acc : Z) (s : string) : Z :=
  match s with
  | EmptyString => acc
  | String c s' => digits_value (10 * acc + (Z.of_nat (nat_of_ascii c) - 48)) s'
  end.

Definition PY_SSIZE_T_MAX : Z := 2 ^ 63 - 1.

(** A scanned field is resolved against the keyword arguments; there are no
    positional arguments, so an empty or numeric name has nothing to index. *)
Definition fmt_field (render : fmt_render) (kw : PyDict.t string)
    (name : string) (conv : option ascii) (spec : string) : result string :=
  let (first, rest) := split_first name in
  if all_digits first then
    if digits_value 0 first >? PY_SSIZE_T_MAX
    then inl (ValueError "Too many decimal digits in format string")
    else inl (IndexError
                "Replacement index out of range for positional args tuple")
  else
    match PyDict.get kw first with
    | None => inl (KeyError first)
    | Some v =>
        match rest, conv, spec with
        | EmptyString, None, EmptyString => inr v
        | _, _, _ => render kw v rest conv spec
        end
    end.

Definition res_prepend (r : result string) (k : result string) : result string :=
  res_bind r (fun a => res_bind k (fun b => inr (a +:+ b))).

Fixpoint fmt_go (render : fmt_render) (kw : PyDict.t string)
    (m : fmt_mode) (s : string) : result string :=
  match m with
  | MText =>
      match s with
      | EmptyString => inr EmptyString
      | String c s' =>
          if Ascii.eqb c ch_lbrace then
            match s' with
            | EmptyString =>
                inl (ValueError "Single '{' encountered in format string")
            | String d s'' =>
                if Ascii.eqb d ch_lbrace
                then res_prepend (inr (str1 c)) (fmt_go render kw MText s'')
                else fmt_go render kw (MName EmptyString false) s'
            end
          else if Ascii.eqb c ch_rbrace then
            match s' with
            | EmptyString =>
                inl (ValueError "Single '}' encountered in format string")
            | String d s'' =>
                if Ascii.eqb d ch_rbrace
                then res_prepend (inr (str1 c)) (fmt_go render kw MText s'')
                else inl (ValueError "Single '}' encountered in format string")
            end
          else res_prepend (inr (str1 c)) (fmt_go render kw MText s')
      end
  | MName name in_bracket =>
      match s with
      | EmptyString => inl (ValueError "expected '}' before end of string")
      | String c s' =>
          if in_bracket then
            fmt_go render kw
              (MName (name +:+ str1 c) (negb (Ascii.eqb c ch_rbracket))) s'
          else if Ascii.eqb c ch_lbrace then
            inl (ValueError "unexpected '{' in field name")
          else if Ascii.eqb c ch_lbracket then
            fmt_go render kw (MName (name +:+ str1 c) true) s'
          else if Ascii.eqb c ch_rbrace then
            res_prepend (fmt_field render kw name None EmptyString)
              (fmt_go render kw MText s')
          else if Ascii.eqb c ch_colon then
            fmt_go render kw (MSpec name None EmptyString 1) s'
          else if Ascii.eqb c ch_bang then
            fmt_go render kw (MConv name) s'
          else fmt_go render kw (MName (name +:+ str1 c) false) s'
      end
  | MConv name =>
      match s with
      | EmptyString =>
          inl (ValueError
                 "end of string while looking for conversion specifier")
      | String c s' => fmt_go render kw (MConvEnd name c) s'
      end
  | MConvEnd name conv =>
      match s with
      | EmptyString => inl (ValueError "unmatched '{' in format spec")
      | String c s' =>
          if Ascii.eqb c ch_rbrace then
            res_prepend (fmt_field render kw name (Some conv) EmptyString)
              (fmt_go render kw MText s')
          else if Ascii.eqb c ch_colon then
            fmt_go render kw (MSpec name (Some conv) EmptyString 1) s'
          else inl (ValueError "expected ':' after conversion specifier")
      end
  | MSpec name conv spec depth =>
      match s with
      | EmptyString => inl (ValueError "unmatched '{' in format spec")
      | String c s' =>
          if Ascii.eqb c ch_lbrace then
            fmt_go render kw (MSpec name conv (spec +:+ str1 c) (S depth)) s'
          else if Ascii.eqb c ch_rbrace then
            match depth with
            | 0%nat | 1%nat =>
                res_prepend (fmt_field render kw name conv spec)
                  (fmt_go render kw MText s')
            | S d => fmt_go render kw (MSpec name conv (spec +:+ str1 c) d) s'
            end
          else fmt_go render kw (MSpec name conv (spec +:+ str1 c) depth) s'
      end
  end.

(** [template.format] applied to the keyword arguments [kw] *)
Definition str_format (render : fmt_render) (template : string)
    (kw : PyDict.t string) : result string :=
  fmt_go render kw MText template.

(** ** [game/core/templates.py]: the default prompt templates

    Each list item is one line of the Python literal; [dq] is the double
    quote character. *)

(** the default [system_template] *)
Definition DEFAULT_SYSTEM_TEMPLATE : string :=
  unlines [
    "You are an agent with the following characteristics:";
    "{character_info}";
    EmptyString;
    "Environment Description:";
    "{world_description}";
    EmptyString;
    "The environment provides the following state information:";
    "{state_descriptions}";
    EmptyString;
    "You will also be provided with a history of actions you have previuosly taken and their outputs and outcomes.";
    EmptyString;
    "You have access to these actions:";
    "{available_actions}";
    EmptyString;
    "Follow these guidelines:";
    "{agent_guidelines}";
    EmptyString;
    "When planning actions:";
    "1. First, analyze the current state and history";
    "2. Think through what needs to be accomplished considering the environment constraints";
    "3. Plan a sequence of actions to achieve your goal";
    "4. Explain your reasoning and strategy";
    EmptyString;
    "Respond in JSON format:";
    "{";
    "    " +:+ dq +:+ "reasoning" +:+ dq +:+ ": " +:+ dq +:+ "Detailed explanation of your thought process and overall strategy" +:+ dq +:+ ",";
    "    " +:+ dq +:+ "plan" +:+ dq +:+ ": [";
    "        {{";
    "            " +:+ dq +:+ "reasoning" +:+ dq +:+ ": " +:+ dq +:+ "Specific reasoning for this step" +:+ dq +:+ ",";
    "            " +:+ dq +:+ "action" +:+ dq +:+ ": " +:+ dq +:+ "name_of_action" +:+ dq +:+ ",";
    "            " +:+ dq +:+ "parameters" +:+ dq +:+ ": {{}}";
    "        }}";
    "    ]";
    "}";
    EmptyString;
    "Example response:";
    "{";
    "    " +:+ dq +:+ "reasoning" +:+ dq +:+ ": " +:+ dq +:+ "Given the Twitter platform constraints and current engagement metrics, ";
    "                 we need to carefully time and structure our content for maximum impact." +:+ dq +:+ ",";
    "    " +:+ dq +:+ "plan" +:+ dq +:+ ": [";
    "        {";
    "            " +:+ dq +:+ "reasoning" +:+ dq +:+ ": " +:+ dq +:+ "First analyze recent trending topics in our niche" +:+ dq +:+ ",";
    "            " +:+ dq +:+ "action" +:+ dq +:+ ": " +:+ dq +:+ "analyze_trends" +:+ dq +:+ ",";
    "            " +:+ dq +:+ "parameters" +:+ dq +:+ ": {" +:+ dq +:+ "topics" +:+ dq +:+ ": [" +:+ dq +:+ "tech" +:+ dq +:+ ", " +:+ dq +:+ "AI" +:+ dq +:+ "], " +:+ dq +:+ "timeframe" +:+ dq +:+ ": " +:+ dq +:+ "24h" +:+ dq +:+ "}";
    "        },";
    "        {";
    "            " +:+ dq +:+ "reasoning" +:+ dq +:+ ": " +:+ dq +:+ "Draft and post content when our audience is most active" +:+ dq +:+ ",";
    "            " +:+ dq +:+ "action" +:+ dq +:+ ": " +:+ dq +:+ "post_tweet" +:+ dq +:+ ",";
    "            " +:+ dq +:+ "parameters" +:+ dq +:+ ": {" +:+ dq +:+ "content" +:+ dq +:+ ": " +:+ dq +:+ "..." +:+ dq +:+ ", " +:+ dq +:+ "schedule" +:+ dq +:+ ": " +:+ dq +:+ "optimal_time" +:+ dq +:+ "}";
    "        }";
    "    ]";
    "}"
  ].

(** the default [user_template] *)
Definition DEFAULT_USER_TEMPLATE : string :=
  unlines [
    "Current State:";
    "{state}";
    EmptyString;
    "Action History:";
    "{action_history}";
    EmptyString;
    "Goal:";
    "{goal}";
    EmptyString;
    "Given this, think through what needs to be accomplished and develop a plan of action. Explain your overall strategy and then break it down into specific steps."
  ].

(** ** The collaborators

    [Environment] and [LLMProvider] are abstract base classes in the source.
    Their methods, and the handlers of the registered actions, read and
    change a world the agent does not own; each call returns the new world
    with either a value or the exception it raised.  The calls are assumed
    to return: a handler that never resumes has no outcome to speak of. *)

Class Environment (World : Type) : Type := {
  State : Type;
  StateDescriptions : Type;
  get_state : World -> result State * World;
  get_state_descriptions : World -> result StateDescriptions * World;
  get_world_description : World -> result string * World;
}.

(** [generate_response(system_prompt=..., user_prompt=...)] as the agent
    calls it, reduced to the [content] of the response it returns.  (The
    abstract method also lists a parameter [model]; a provider that insists
    on it raises [TypeError], which is one of the outcomes here.) *)
Class LLMProvider (World : Type) : Type := {
  generate_response : string -> string -> World -> result string * World;
}.

(** The library functions the agent calls.  [json_loads] is [json.loads]:
    it decodes the text, raises [JSONDecodeError] on a text that is not
    JSON, or raises something else (RecursionError on a text nested too
    deep, a plain ValueError on an integer of too many digits).
    [json_dumps] is [json.dumps(_, indent=2)] on JSON values, and the two
    [dumps_] functions are the same call on what the environment hands out,
    which may not be serializable. *)
Class Runtime (World Res : Type) `{Environment World} : Type := {
  json_loads : string -> result json;
  json_dumps : json -> string;
  dumps_state : State -> result string;
  dumps_state_descriptions : StateDescriptions -> result string;
  res_str : Res -> string;
  format_render : fmt_render;
}.

(** ** [game/core/actions.py] *)

Section Actions.
Context {World Res : Type}.

Record ActionResult : Type := mkActionResult {
  success : bool;
  message : string;
  data : option Res;
}.

(** An action handler called with keyword arguments. *)
Definition Handler : Type := PyDict.t json -> World -> result Res * World.

(** The examples registered are JSON data: an example that [json.dumps]
    cannot serialize is outside the model. *)
Record Action : Type := mkAction {
  func : Handler;
  description : string;
  required_params : PyDict.t string;
  example : PyDict.t json;
}.

Record ActionDescription : Type := mkActionDescription {
  d_description : string;
  d_required_params : PyDict.t string;
  d_example : PyDict.t json;
}.

Record ActionRegistry : Type := mkActionRegistry {
  _actions : PyDict.t Action;
}.

Definition ActionRegistry_init : ActionRegistry := mkActionRegistry PyDict.empty.

(** [self._actions[name] = action] *)
Definition register (self : ActionRegistry) (name : string) (action : Action)
    : ActionRegistry :=
  mkActionRegistry (PyDict.set (_actions self) name action).

(** [self._actions.get(name)], for whatever value [name] is: the keys are
    strings, a hashable value of another type equals none of them, and an
    unhashable one cannot be looked up. *)
Definition get_action (self : ActionRegistry) (name : json)
    : result (option Action) :=
  match name with
  | JString s => inr (PyDict.get (_actions self) s)
  | JList _ => inl (TypeError "unhashable type: 'list'")
  | JObject _ => inl (TypeError "unhashable type: 'dict'")
  | _ => inr None
  end.

(** Registrations made one after the other, the head of the list first. *)
Definition register_all (self : ActionRegistry)
    (registrations : list (string * Action)) : ActionRegistry :=
  fold_left (fun r na => register r (fst na) (snd na)) registrations self.

Definition describe (action : Action) : ActionDescription :=
  mkActionDescription (description action) (required_params action)
    (example action).

Definition get_action_descriptions (self : ActionRegistry)
    : PyDict.t ActionDescription :=
  PyDict.map_items describe (_actions self).

(** The exported mapping as the JSON value [json.dumps] receives. *)
Definition description_json (d : ActionDescription) : json :=
  JObject [ ("description", JString (d_description d));
            ("required_params",
             JObject (PyDict.map_items JString (d_required_params d)));
            ("example", JObject (d_example d)) ].

Definition descriptions_json (ds : PyDict.t ActionDescription) : json :=
  JObject (PyDict.map_items description_json ds).

End Actions.

Arguments ActionResult : clear implicits.
Arguments Handler : clear implicits.
Arguments Action : clear implicits.
Arguments ActionRegistry : clear implicits.

(** ** [game/core/agent.py] *)

(** How one pass of the loop, and the loop, can stand (section 4.5 of the
    specification).  [run_loop] returns nothing in Python; the model returns
    the place it left the loop from. *)
Inductive loop_state : Type :=
  | Running
  | StoppedOnFailure (message : string)
  | StoppedOnError (e : exn)
  | Completed.

Section Agent.
Context {World Res : Type}.
Context `{rt : Runtime World Res} {llm : LLMProvider World}.

(** A value stored in a history entry. *)
Inductive field : Type :=
  | FJson (v : json)
  | FRes (r : Res).

Definition field_str (f : field) : string :=
  match f with
  | FJson v => py_str v
  | FRes r => res_str r
  end.

Definition HistoryEntry : Type := PyDict.t field.

Record Agent : Type := mkAgent {
  system_template : string;
  user_template : string;
  character_info : PyDict.t string;
  agent_guidelines : list string;
  action_registry : ActionRegistry World Res;
  action_history : list HistoryEntry;
  max_history : Z;
}.

(** [Agent.__init__] *)
Definition Agent_init (system_template user_template : string)
    (character_info : PyDict.t string) (agent_guidelines : list string)
    (max_history : Z) : Agent :=
  mkAgent system_template user_template character_info agent_guidelines
    ActionRegistry_init [] max_history.

Definition set_history (a : Agent) (h : list HistoryEntry) : Agent :=
  mkAgent (system_template a) (user_template a) (character_info a)
    (agent_guidelines a) (action_registry a) h (max_history a).

Definition set_registry (a : Agent) (r : ActionRegistry World Res) : Agent :=
  mkAgent (system_template a) (user_template a) (character_info a)
    (agent_guidelines a) r (action_history a) (max_history a).

(** *** The monad: the agent, the world, and exceptions *)

Definition Sys : Type := Agent * World.
Definition M (A : Type) : Type := Sys -> result A * Sys.

Definition ret {A} (x : A) : M A := fun s => (inr x, s).
Definition raise {A} (e : exn) : M A := fun s => (inl e, s).
Definition bind {A B} (m : M A) (k : A -> M B) : M B :=
  fun s => match m s with
           | (inr x, s') => k x s'
           | (inl e, s') => (inl e, s')
           end.
Definition lift_res {A} (r : result A) : M A := fun s => (r, s).
Definition lift_world {A} (f : World -> result A * World) : M A :=
  fun s => let (r, w) := f (snd s) in (r, (fst s, w)).
Definition get_self : M Agent := fun s => (inr (fst s), s).
Definition put_self (a : Agent) : M unit := fun s => (inr tt, (a, snd s)).

(** [try: body  except Exception as e: handler(e)].  What the body did
    before it raised stays done; an exception outside [Exception] passes. *)
Definition try_except {A} (body : M A) (handler : exn -> M A) : M A :=
  fun s => match body s with
           | (inr x, s') => (inr x, s')
           | (inl e, s') =>
               if is_Exception e then handler e s' else (inl e, s')
           end.

Declare Scope agent_scope.
Delimit Scope agent_scope with agent.
Notation "x <- m ;; k" := (bind m (fun x => k))
  (at level 100, m at next level, right associativity) : agent_scope.
Notation "m ;; k" := (bind m (fun _ => k))
  (at level 100, right associativity) : agent_scope.
Local Open Scope agent_scope.

(** *** Prompt construction *)

(** [seq[start:]] *)
Definition py_slice_from {A} (start : Z) (l : list A) : list A :=
  let n := Z.of_nat (length l) in
  let s := if start <? 0 then Z.max (start + n) 0 else Z.min start n in
  drop (Z.to_nat s) l.

(** One item of the generator in [_format_action_history]: the f-string
    reads the keys name, timestamp, reasoning and result in this order. *)
Definition format_entry (action : HistoryEntry) : result string :=
  res_bind (PyDict.getitem action "name") (fun name =>
  res_bind (PyDict.getitem action "timestamp") (fun timestamp =>
  res_bind (PyDict.getitem action "reasoning") (fun reasoning =>
  res_bind (PyDict.getitem action "result") (fun result =>
  inr ("- " +:+ field_str name +:+ " (" +:+ field_str timestamp +:+ "): "
       +:+ field_str reasoning +:+ nl +:+ "  Result: "
       +:+ field_str result))))).

Definition _format_action_history : M string :=
  self <- get_self ;;
  match action_history self with
  | [] => ret "No previous actions taken."
  | _ :: _ =>
      lines <- lift_res
                 (res_mapM format_entry
                    (py_slice_from (- max_history self) (action_history self))) ;;
      ret (py_join nl lines)
  end.

Definition build_system_prompt : M string :=
  self <- get_self ;;
  let action_descriptions :=
    get_action_descriptions (action_registry self) in
  state_descriptions <- lift_world get_state_descriptions ;;
  world_description <- lift_world get_world_description ;;
  let info :=
    json_dumps (JObject (PyDict.map_items JString (character_info self))) in
  descs <- lift_res (dumps_state_descriptions state_descriptions) ;;
  let actions := json_dumps (descriptions_json action_descriptions) in
  let guidelines :=
    py_join nl (List.map (fun g => "- " +:+ g) (agent_guidelines self)) in
  lift_res
    (str_format format_render (system_template self)
       [ ("character_info", info);
         ("world_description", world_description);
         ("state_descriptions", descs);
         ("available_actions", actions);
         ("agent_guidelines", guidelines) ]).

Definition build_user_prompt (state : State) : M string :=
  history <- _format_action_history ;;
  self <- get_self ;;
  dumped <- lift_res (dumps_state state) ;;
  lift_res
    (str_format format_render (user_template self)
       [ ("state", dumped); ("action_history", history) ]).

(** *** Actions *)

Definition register_action (name : string) (func : Handler World Res)
    (description : string) (required_params : PyDict.t string)
    (example : PyDict.t json) : M unit :=
  self <- get_self ;;
  let action := mkAction func description required_params example in
  put_self (set_registry self (register (action_registry self) name action)).

(** The dictionary [execute_action] appends to the history. *)
Definition history_entry (action_name : json) (kwargs : PyDict.t json)
    (reasoning : json) (result : Res) : HistoryEntry :=
  [ ("name", FJson action_name);
    ("parameters", FJson (JObject kwargs));
    ("reasoning", FJson reasoning);
    ("result", FRes result) ].

(** [self.action_history.append(entry)] *)
Definition history_append (entry : HistoryEntry) : M unit :=
  self <- get_self ;;
  put_self (set_history self (action_history self ++ [entry])).

(** [if len(self.action_history) > self.max_history:
       self.action_history.pop(0)] *)
Definition history_maintain : M unit :=
  self <- get_self ;;
  if Z.of_nat (length (action_history self)) >? max_history self
  then put_self (set_history self (tail (action_history self)))
  else ret tt.

Definition execute_action (action_name : json) (reasoning : json)
    (kwargs : PyDict.t json) : M (ActionResult Res) :=
  self <- get_self ;;
  action <- lift_res (get_action (action_registry self) action_name) ;;
  match action with
  | None =>
      ret (mkActionResult false
             ("Action '" +:+ py_str action_name +:+ "' not found") None)
  | Some action =>
      try_except
        (result <- lift_world (func action kwargs) ;;
         history_append (history_entry action_name kwargs reasoning result) ;;
         history_maintain ;;
         ret (mkActionResult true "Action executed successfully" (Some result)))
        (fun e =>
           text <- lift_res (exn_str e) ;;
           ret (mkActionResult false ("Action failed: " +:+ text) None))
  end.

(** A caller that executes one action after the other and keeps the
    results: (name, reasoning, parameters) for each call. *)
Definition Call : Type := json * json * PyDict.t json.

Fixpoint execute_all (calls : list Call) : M (list (ActionResult Res)) :=
  match calls with
  | [] => ret []
  | (action_name, reasoning, kwargs) :: calls' =>
      r <- execute_action action_name reasoning kwargs ;;
      rs <- execute_all calls' ;;
      ret (r :: rs)
  end.

(** *** Next action *)

Definition get_next_action (state : State) : M json :=
  system_prompt <- build_system_prompt ;;
  user_prompt <- build_user_prompt state ;;
  content <- lift_world (generate_response system_prompt user_prompt) ;;
  match json_loads content with
  | inr action_data => ret action_data
  | inl e =>
      if is_JSONDecodeError e
      then raise (ValueError "LLM response was not in the expected JSON format")
      else raise e
  end.

(** *** The loop *)

(** [action_data.pop("action")] on whatever was decoded: only a dict has a
    [pop] that takes a key. *)
Definition pop_action (action_data : json) : result (json * PyDict.t json) :=
  match action_data with
  | JObject members => PyDict.pop members "action"
  | JList _ => inl (TypeError "'str' object cannot be interpreted as an integer")
  | _ => inl (AttributeError "object has no attribute 'pop'")
  end.

(** [self.execute_action(action_name, reasoning=reasoning, **action_data)]:
    a remaining key that names a parameter already bound makes the call
    itself raise. *)
Definition call_execute_action (action_name reasoning : json)
    (action_data : PyDict.t json) : M (ActionResult Res) :=
  if PyDict.has_key action_data "action_name"
     || PyDict.has_key action_data "self"
  then raise (TypeError "execute_action() got multiple values for argument")
  else execute_action action_name reasoning action_data.

(** [print] and [asyncio.sleep(1)]: standard output and time are not part
    of the model. *)
Definition print (line : string) : M unit := ret tt.
Definition sleep (seconds : Z) : M unit := ret tt.

(** What the [try] block does before it looks at the result: fetch the
    state, ask for the next action, take [action] and [reasoning] out of
    the answer, execute. *)
Definition loop_pass : M (ActionResult Res) :=
  state <- lift_world get_state ;;
  action_data <- get_next_action state ;;
  popped <- lift_res (pop_action action_data) ;;
  let action_name := fst popped in
  let popped' :=
    PyDict.pop_default (snd popped) "reasoning" (JString EmptyString) in
  let reasoning := fst popped' in
  call_execute_action action_name reasoning (snd popped').

(** The body of the [for], with its [try] and [except]: [Running] when the
    loop goes on, otherwise the [break] taken. *)
Definition loop_body : M loop_state :=
  try_except
    (result <- loop_pass ;;
     if negb (success result) then
       print ("Action failed: " +:+ message result) ;;
       ret (StoppedOnFailure (message result))
     else
       sleep 1 ;;
       ret Running)
    (fun e =>
       text <- lift_res (exn_str e) ;;
       print ("Error in agent loop: " +:+ text) ;;
       ret (StoppedOnError e)).

(** [for step in range(...)], with the number of passes made so far. *)
Fixpoint run_steps (remaining : nat) (step : nat) : M (loop_state * nat) :=
  match remaining with
  | O => ret (Completed, step)
  | S remaining' =>
      st <- loop_body ;;
      match st with
      | Running => run_steps remaining' (S step)
      | _ => ret (st, S step)
      end
  end.

(** [run_loop(max_steps)]: where the loop ended and after how many passes. *)
Definition run_loop (max_steps : Z) : M (loop_state * nat) :=
  run_steps (Z.to_nat max_steps) 0.

End Agent.

Arguments Agent : clear implicits.
Arguments HistoryEntry : clear implicits.
Arguments field : clear implicits.

(** ** [game/core/llm.py]: the two provider classes

    Both classes declare [generate_response(self, model, system_prompt,
    user_prompt, kwargs)], with [kwargs] collecting further keywords, and
    pass these on to the vendor's client.  The client is a collaborator; the
    way a call binds its arguments is Python's. *)

(** The parameters of a function after [self]: each with whether it has a
    default, and whether further keywords are collected. *)
Record Signature : Type := mkSignature {
  sig_params : list (string * bool);
  sig_var_keyword : bool;
}.

(** Positional arguments fill the first parameters. *)
Fixpoint bind_positional {V} (params : list (string * bool))
    (positional : list V) : PyDict.t V :=
  match params, positional with
  | (p, _) :: params', v :: positional' =>
      (p, v) :: bind_positional params' positional'
  | _, _ => []
  end.

(** Each keyword goes to the parameter of its name, which must still be
    free, or to the collected keywords when the function collects them. *)
Fixpoint bind_keywords {V} (sig : Signature) (bound extra : PyDict.t V)
    (keywords : PyDict.t V) : result (PyDict.t V * PyDict.t V) :=
  match keywords with
  | [] => inr (bound, extra)
  | (k, v) :: keywords' =>
      if PyDict.has_key (sig_params sig) k then
        if PyDict.has_key bound k
        then inl (TypeError ("got multiple values for argument '" +:+ k +:+ "'"))
        else bind_keywords sig (bound ++ [(k, v)]) extra keywords'
      else if sig_var_keyword sig
      then bind_keywords sig bound (extra ++ [(k, v)]) keywords'
      else inl (TypeError ("got an unexpected keyword argument '" +:+ k +:+ "'"))
  end.

(** The parameters without a default that nothing was bound to. *)
Definition missing_params {V} (sig : Signature) (bound : PyDict.t V)
    : list string :=
  List.map fst
    (List.filter (fun p => negb (snd p) && negb (PyDict.has_key bound (fst p)))
       (sig_params sig)).

(** The names of the missing parameters as the interpreter lists them:
    ['a'], ['a' and 'b'], ['a', 'b', and 'c']. *)
Definition py_name_list (names : list string) : string :=
  match names with
  | [] => EmptyString
  | [n] => n
  | [n; n'] => n +:+ " and " +:+ n'
  | _ =>
      py_join ", " (removelast names) +:+ ", and " +:+ List.last names EmptyString
  end.

(** A call: the bound parameters and the collected keywords, or the
    [TypeError] of a call that does not fit the signature (its message
    without the name of the function). *)
Definition py_call_bind {V} (sig : Signature) (positional : list V)
    (keywords : PyDict.t V) : result (PyDict.t V * PyDict.t V) :=
  res_bind (bind_keywords sig (bind_positional (sig_params sig) positional) []
              keywords)
    (fun be =>
       if Nat.ltb (length (sig_params sig)) (length positional)
       then inl (TypeError "too many positional arguments")
       else
         match missing_params sig (fst be) with
         | [] => inr be
         | missing =>
             inl (TypeError
                    ("missing " +:+ str_of_Z (Z.of_nat (length missing))
                     +:+ " required positional argument"
                     +:+ (if Nat.ltb 1 (length missing) then "s" else EmptyString)
                     +:+ ": "
                     +:+ py_name_list (List.map py_repr_str missing)))
         end).

Definition generate_response_signature : Signature :=
  mkSignature
    [ ("model", false); ("system_prompt", false); ("user_prompt", false) ]
    true.

Section Providers.
Context {World : Type}.

(** The vendor's client: model, system prompt, user prompt and further
    keywords in, the text of the response out. *)
Definition VendorClient : Type :=
  string -> string -> string -> PyDict.t string -> World
  -> result string * World.

(** [generate_response] of either class as the agent calls it, with the
    two keywords [system_prompt] and [user_prompt]. *)
Definition provider_generate_response (client : VendorClient)
    (system_prompt user_prompt : string) (w : World) : result string * World :=
  match py_call_bind generate_response_signature []
          [ ("system_prompt", system_prompt); ("user_prompt", user_prompt) ] with
  | inl e => (inl e, w)
  | inr (bound, kwargs) =>
      match PyDict.get bound "model", PyDict.get bound "system_prompt",
            PyDict.get bound "user_prompt" with
      | Some model, Some system_prompt', Some user_prompt' =>
          client model system_prompt' user_prompt' kwargs w
      | _, _, _ => (inl (TypeError "unbound parameter"), w)
      end
  end.

Definition ClaudeLLM (client : VendorClient) : LLMProvider World :=
  {| generate_response := provider_generate_response client |}.

Definition OpenAILLM (client : VendorClient) : LLMProvider World :=
  {| generate_response := provider_generate_response client |}.

End Providers.

Arguments VendorClient : clear implicits.

(** What a call of [generate_response] without [model] raises. *)
Definition missing_model : exn :=
  TypeError "missing 1 required positional argument: 'model'".

(** ** [game/environments/twitter_env.py]: the state and its cache

    [TwitterEnv.get_state] answers from a cache while the cache is fresh and
    fetches otherwise.  The fetch, which is the body of its [try] up to the
    dict it builds (three calls of the tweepy client and the arithmetic on
    their answers, with floats and the iteration order of a set), is a
    collaborator here: it gives the seven values of the state or raises.
    The clock is [datetime.now()], read in microseconds.  The method
    [get_user_timeline] works on the client's objects only and is not
    modelled. *)

Module TwitterEnv.

(** The seven values the [try] block computes. *)
Record Fetched : Type := mkFetched {
  follower_count : json;
  following_count : json;
  tweet_count : json;
  recent_mentions : json;
  account_age_days : json;
  engagement_rate : json;
  recent_hashtags : json;
}.

Class Host (World : Type) : Type := {
  datetime_now : World -> Z * World;
  fetch : World -> result Fetched * World;
}.

(** The two values [__init__] hands to the instance. *)
Definition described_variable (description type : string) (example : json)
    : json :=
  JObject [ ("description", JString description); ("type", JString type);
            ("example", example) ].

Definition init_state_descriptions : PyDict.t json :=
  [ ("follower_count",
     described_variable "Number of followers the account has" "integer"
       (JInt 1234));
    ("following_count",
     described_variable "Number of accounts being followed" "integer"
       (JInt 567));
    ("tweet_count",
     described_variable "Total number of tweets posted by the account"
       "integer" (JInt 789));
    ("recent_mentions",
     described_variable "List of 5 most recent mentions/interactions" "array"
       (JList [JObject [("username", JString "user1");
                        ("text", JString "Hello!")]]));
    ("account_age_days",
     described_variable "Age of the Twitter account in days" "integer"
       (JInt 365));
    ("engagement_rate",
     described_variable
       "Average engagement rate on recent tweets (likes + retweets / followers) as percentage"
       "number" (JFloat "2.5"));
    ("recent_hashtags",
     described_variable "Most used hashtags in recent tweets" "array"
       (JList [JString "#AI"; JString "#Tech"])) ].

Definition init_world_description : string :=
  unlines [
    EmptyString;
    "        Twitter social media environment for monitoring and interacting with Twitter.";
    "        The agent can:";
    "        - Track followers, following, and tweet counts";
    "        - Monitor recent mentions and interactions";
    "        - Track engagement rates and hashtag usage";
    "        - Post tweets and monitor account performance";
    "        ";
    "        Note: Actions follow Twitter's rate limits and terms of service.";
    "        "
  ].

(** The fields of the instance next to its client. *)
Record t : Type := mkTwitterEnv {
  _cache : PyDict.t json;
  _cache_timestamp : option Z;
  cache_duration : Z;
  state_descriptions : PyDict.t json;
  world_description : string;
}.

Definition init (cache_duration : Z) : t :=
  mkTwitterEnv PyDict.empty None cache_duration init_state_descriptions
    init_world_description.

Definition set_cache (self : t) (state : PyDict.t json) (stamp : Z) : t :=
  mkTwitterEnv state (Some stamp) (cache_duration self)
    (state_descriptions self) (world_description self).

(** [timedelta(seconds=n)] in microseconds; a [timedelta] has at most
    999999999 days. *)
Definition timedelta_seconds (seconds : Z) : result Z :=
  if Z.abs (seconds / 86400) <=? 999999999
  then inr (seconds * 1000000)
  else inl (Thrown "OverflowError" true "days out of range for timedelta").

(** A dict is true when it has a key. *)
Definition dict_bool {V} (d : PyDict.t V) : bool :=
  match d with
  | [] => false
  | _ :: _ => true
  end.

(** The condition of the first [if], evaluated left to right: without a
    timestamp the duration is not looked at. *)
Definition cache_fresh (self : t) (current_time : Z) : result bool :=
  match _cache_timestamp self with
  | None => inr false
  | Some stamp =>
      res_bind (timedelta_seconds (cache_duration self))
        (fun duration =>
           inr ((current_time - stamp <? duration) && dict_bool (_cache self)))
  end.

(** The dict the [try] block builds. *)
Definition state_of (values : Fetched) : PyDict.t json :=
  [ ("follower_count", follower_count values);
    ("following_count", following_count values);
    ("tweet_count", tweet_count values);
    ("recent_mentions", recent_mentions values);
    ("account_age_days", account_age_days values);
    ("engagement_rate", engagement_rate values);
    ("recent_hashtags", recent_hashtags values) ].

(** The dict of the [except] block when there is no cache, [text] being
    [str(e)]. *)
Definition error_state (text : string) : PyDict.t json :=
  [ ("error", JString "Failed to fetch Twitter state");
    ("error_message", JString text) ].

Definition get_state {World} {host : Host World} (self : t) (w : World)
    : result (PyDict.t json) * (t * World) :=
  let (current_time, w1) := datetime_now w in
  match cache_fresh self current_time with
  | inl e => (inl e, (self, w1))
  | inr true => (inr (_cache self), (self, w1))
  | inr false =>
      match fetch w1 with
      | (inr values, w2) =>
          let state := state_of values in
          (inr state, (set_cache self state current_time, w2))
      | (inl e, w2) =>
          if is_Exception e then
            match exn_str e with
            | inl raised => (inl raised, (self, w2))
            | inr text =>
                (inr (if dict_bool (_cache self) then _cache self
                      else error_state text),
                 (self, w2))
            end
          else (inl e, (self, w2))
      end
  end.

Definition get_state_descriptions (self : t) : PyDict.t json :=
  state_descriptions self.

Definition get_world_description (self : t) : string :=
  world_description self.

End TwitterEnv.

(** [await] on a value that is no awaitable: [Environment] declares
    [get_state] as a coroutine and the agent awaits it, [TwitterEnv] defines
    it as a plain method that returns a dict. *)
Definition not_awaitable : exn :=
  TypeError "object dict can't be used in 'await' expression".

(** A [TwitterEnv] as the environment of an agent: the instance lives in the
    world; [get_state] is called and what it returns is awaited. *)
Definition TwitterEnv_environment {World} {host : TwitterEnv.Host World}
    : Environment (TwitterEnv.t * World) := {|
  State := PyDict.t json;
  StateDescriptions := PyDict.t json;
  get_state := fun s =>
    match TwitterEnv.get_state (fst s) (snd s) with
    | (inl e, s') => (inl e, s')
    | (inr _, s') => (inl not_awaitable, s')
    end;
  get_state_descriptions := fun s =>
    (inr (TwitterEnv.get_state_descriptions (fst s)), s);
  get_world_description := fun s =>
    (inr (TwitterEnv.get_world_description (fst s)), s);
|}.

(** ** A small concrete setting

    One world, one environment, one provider and a runtime that can be
    evaluated, used to run the definitions on concrete inputs.  The world is
    the list of calls the collaborators have seen, latest first. *)

Module Demo.

Definition World : Type := list string.
Definition Res : Type := string.

#[global] Instance env : Environment World := {|
  State := json;
  StateDescriptions := json;
  get_state := fun w => (inr (JObject [("followers", JInt 7)]), "get_state" :: w);
  get_state_descriptions := fun w => (inr (JObject []), w);
  get_world_description := fun w => (inr "a quiet room", w);
|}.

Definition text_of (members : list (string * string)) : string :=
  "{" +:+
  py_join ", "
    (List.map (fun kv => dq +:+ fst kv +:+ dq +:+ ": " +:+ dq +:+ snd kv +:+ dq)
       members) +:+
  "}".

Definition wave_text : string := text_of [("action", "wave"); ("reasoning", "greet")].
Definition quit_text : string := text_of [("action", "quit")].
Definition nonexistent_text : string := text_of [("action", "nonexistent")].
Definition no_action_text : string := text_of [("reasoning", "idle")].

(** A hundred thousand opening brackets: more nesting than [json.loads]
    follows. *)
Definition deep_text : string :=
  N.iter 100000 (String ch_lbracket) EmptyString.

Definition too_deep : exn :=
  Thrown "RecursionError" true
    "maximum recursion depth exceeded while decoding a JSON array from a unicode string".

(** Decodes the few documents above and gives up on [deep_text]; anything
    else is not JSON here. *)
Definition loads (text : string) : result json :=
  if String.eqb text wave_text then
    inr (JObject [("action", JString "wave"); ("reasoning", JString "greet")])
  else if String.eqb text quit_text then
    inr (JObject [("action", JString "quit")])
  else if String.eqb text nonexistent_text then
    inr (JObject [("action", JString "nonexistent")])
  else if String.eqb text no_action_text then
    inr (JObject [("reasoning", JString "idle")])
  else if String.eqb text deep_text then inl too_deep
  else inl (JSONDecodeError "Expecting value: line 1 column 1 (char 0)").

#[global] Instance rt : Runtime World Res := {|
  json_loads := loads;
  json_dumps := py_repr;
  dumps_state := fun st => inr (py_repr st);
  dumps_state_descriptions := fun d => inr (py_repr d);
  res_str := fun r => r;
  format_render := fun _ _ _ _ _ => inl (ValueError "Invalid format specifier");
|}.

(** A provider that always answers [text]. *)
Definition answering (text : string) : LLMProvider World := {|
  generate_response := fun _ _ w => (inr text, "generate_response" :: w);
|}.

Definition wave : Handler World Res :=
  fun _ w => (inr "waved", "wave" :: w).
Definition broken : Handler World Res :=
  fun _ w => (inl (Thrown "RuntimeError" true "no hands"), "broken" :: w).
Definition quit : Handler World Res :=
  fun _ w => (inl (Thrown "SystemExit" false EmptyString), "quit" :: w).
Definition echo (label : string) : Handler World Res :=
  fun _ w => (inr label, label :: w).

(** A handler whose exception cannot be printed: its [__str__] raises. *)
Definition unspeakable : exn :=
  Unprintable "Mute" true (Thrown "RuntimeError" true "no words").
Definition mute : Handler World Res :=
  fun _ w => (inl unspeakable, "mute" :: w).

Definition plain_action (h : Handler World Res) : Action World Res :=
  mkAction h "an action" [] [].

Definition registry : ActionRegistry World Res :=
  register_all ActionRegistry_init
    [ ("wave", plain_action wave);
      ("broken", plain_action broken);
      ("quit", plain_action quit);
      ("X", plain_action (echo "x"));
      ("Y", plain_action (echo "y"));
      ("Z", plain_action (echo "z"));
      ("mute", plain_action mute) ].

(** An agent whose templates use the supplied placeholders only. *)
Definition agent (max_history : Z) : Agent World Res :=
  set_registry
    (Agent_init "World: {world_description}" "{state} / {action_history}"
       [] [] max_history)
    registry.

(** That agent after one successful [wave]. *)
Definition after_wave (max_history : Z) : Agent World Res :=
  set_history (agent max_history)
    [ history_entry (JString "wave") [] (JString "greet") "waved" ].

(** The same agent with the default templates. *)
Definition default_agent : Agent World Res :=
  set_registry
    (Agent_init DEFAULT_SYSTEM_TEMPLATE DEFAULT_USER_TEMPLATE [] [] 5)
    registry.

End Demo.

(** ** Vocabulary of the statements *)

(** The last [n] items of a list. *)
Definition window {A} (n : nat) (l : list A) : list A :=
  drop (length l - n) l.

(** The field of [DEFAULT_SYSTEM_TEMPLATE] that opens the JSON example: a
    single brace, so everything up to the colon is read as a field name. *)
Definition stray_field : string :=
  nl +:+ "    " +:+ dq +:+ "reasoning" +:+ dq.

(** What [get_next_action] raises for an answer that is not JSON. *)
Definition format_error : exn :=
  ValueError "LLM response was not in the expected JSON format".

(** A call by name alone, with no reasoning and no parameters. *)
Definition call (name : string) : Call := (JString name, JString EmptyString, []).

(** What [get_next_action] makes of the outcome of [json.loads]: the
    decoded value, the format error for a [JSONDecodeError], and any other
    exception as it is. *)
Definition next_action_of (loaded : result json) : result json :=
  match loaded with
  | inr action_data => inr action_data
  | inl e => if is_JSONDecodeError e then inl format_error else inl e
  end.

(** What an [except Exception as e] clause that formats [str(e)] comes to:
    [found text] when [str(e)] gives [text], and otherwise the exception
    that [str(e)] raises. *)
Definition with_str {A} (e : exn) (found : string -> A) : result A :=
  match exn_str e with
  | inr text => inr (found text)
  | inl raised => inl raised
  end.

(** How the loop ends a pass that raised [e], [steps] passes made: an error
    stop when [e] derives from [Exception] and can be printed; otherwise an
    exception leaves [run_loop], [e] itself or the one [str(e)] raised. *)
Definition stop_on (e : exn) (steps : nat) : result (loop_state * nat) :=
  if is_Exception e then with_str e (fun _ => (StoppedOnError e, steps))
  else inl e.


Section Vocabulary.
Context {World Res : Type}.
Implicit Types (a : Agent World Res).

(** What [execute_action] leaves in the history after a handler returned
    [v]: the new entry goes last, the oldest goes when over capacity. *)
Definition history_after a (action_name reasoning : json)
    (kwargs : PyDict.t json) (v : Res) : list (HistoryEntry Res) :=
  let h := action_history a ++ [history_entry action_name kwargs reasoning v] in
  if Z.of_nat (length h) >? max_history a then tail h else h.

(** The result of an execution whose handler returned [v]. *)
Definition ok_result (v : Res) : ActionResult Res :=
  mkActionResult true "Action executed successfully" (Some v).

(** The entries a list of calls leaves when their handlers returned
    [values], oldest first. *)
Definition entries_of (calls : list Call) (values : list Res)
    : list (HistoryEntry Res) :=
  zip_with
    (fun (c : Call) v => history_entry (fst (fst c)) (snd c) (snd (fst c)) v)
    calls values.

(** An executed action as the specification describes it: the name
    invoked, the parameters passed, the reasoning supplied and the value
    the handler returned. *)
Record Execution : Type := mkExecution {
  done_name : json;
  done_parameters : PyDict.t json;
  done_reasoning : json;
  done_result : Res;
}.

(** The entry holds these four things, under the keys [name], [parameters],
    [reasoning] and [result], and nothing else. *)
Definition records (entry : HistoryEntry Res) (x : Execution) : Prop :=
  PyDict.keys entry = ["name"; "parameters"; "reasoning"; "result"]
  /\ PyDict.get entry "name" = Some (FJson (done_name x))
  /\ PyDict.get entry "parameters" = Some (FJson (JObject (done_parameters x)))
  /\ PyDict.get entry "reasoning" = Some (FJson (done_reasoning x))
  /\ PyDict.get entry "result" = Some (FRes (done_result x)).

(** The executions a list of calls stands for when their handlers returned
    [values], oldest first. *)
Definition executions (calls : list Call) (values : list Res)
    : list Execution :=
  zip_with
    (fun (c : Call) v => mkExecution (fst (fst c)) (snd c) (snd (fst c)) v)
    calls values.

(** An entry as [execute_action] writes it. *)
Definition made_by_execute_action (entry : HistoryEntry Res) : Prop :=
  exists action_name kwargs reasoning result,
    entry = history_entry action_name kwargs reasoning result.

(** The most recent registration made under [n]. *)
Definition latest (regs : list (string * Action World Res)) (n : string)
    : option (Action World Res) :=
  PyDict.get (reverse regs) n.

(** The invariant of the history. *)
Definition history_bounded a : Prop :=
  Z.of_nat (length (action_history a)) <= max_history a.

(** [m] never changes the agent, whatever it returns or raises. *)
Definition reads_only {A} (m : @M World Res A) : Prop :=
  forall s, fst (snd (m s)) = fst s.

(** [m] keeps the property [P] of the agent. *)
Definition keeps (P : Agent World Res -> Prop) {A} (m : @M World Res A) : Prop :=
  forall s, P (fst s) -> P (fst (snd (m s))).

End Vocabulary.

Arguments Execution : clear implicits.

(** ** Vocabulary of the further properties *)

Section LoopVocabulary.
Context {World Res : Type}.
Context {env : Environment World} {rt : Runtime World Res}
  {llm : LLMProvider World}.
Implicit Types (a : Agent World Res) (w : World).

(** From the world [w] a pass gets as far as the provider: the state is
    fetched, both prompts are built, and the provider answers [text],
    leaving the world [w2]. *)
Definition answers a w (text : string) (w2 : World) : Prop :=
  exists state w0 system_prompt w1 user_prompt,
    get_state w = (inr state, w0)
    /\ build_system_prompt (a, w0) = (inr system_prompt, (a, w1))
    /\ build_user_prompt state (a, w1) = (inr user_prompt, (a, w1))
    /\ generate_response system_prompt user_prompt w1 = (inr text, w2).

(** The reasoning a decoded answer carries, [""] when it has none. *)
Definition reasoning_of (members : PyDict.t json) : json :=
  match PyDict.get members "reasoning" with
  | Some r => r
  | None => JString EmptyString
  end.

(** The members of a decoded answer that are neither [action] nor
    [reasoning]. *)
Definition parameters_of (members : PyDict.t json) : PyDict.t json :=
  PyDict.remove (PyDict.remove members "action") "reasoning".

(** [a'] is [a] but for the history. *)
Definition same_configuration a a' : Prop :=
  system_template a' = system_template a
  /\ user_template a' = user_template a
  /\ character_info a' = character_info a
  /\ agent_guidelines a' = agent_guidelines a
  /\ action_registry a' = action_registry a
  /\ max_history a' = max_history a.

(** What [action_data.pop("action")] raises on a value that is not a dict. *)
Definition pop_error (action_data : json) : exn :=
  match action_data with
  | JList _ => TypeError "'str' object cannot be interpreted as an integer"
  | _ => AttributeError "object has no attribute 'pop'"
  end.

(** The agent after [m]: as before, or, when [m] returned a success, with
    the history one execution further. *)
Definition one_execution_at_most (m : @M World Res (ActionResult Res)) : Prop :=
  forall s,
    match m s with
    | (inl e, s') => fst s' = fst s
    | (inr r, s') =>
        if success r then
          exists action_name reasoning kwargs v,
            r = ok_result v
            /\ fst s' =
               set_history (fst s)
                 (history_after (fst s) action_name reasoning kwargs v)
        else fst s' = fst s
    end.

(** An agent that has nothing in its history and no room for anything. *)
Definition forgetful a : Prop :=
  action_history a = [] /\ max_history a <= 0.

(** Every entry of the history names, as a string, an action of the
    registry. *)
Definition names_registered a : Prop :=
  Forall
    (fun entry : HistoryEntry Res =>
       exists n, PyDict.get entry "name" = Some (FJson (JString n))
                 /\ is_Some (PyDict.get (_actions (action_registry a)) n))
    (action_history a).

End LoopVocabulary.

Section RenderVocabulary.
Context {World Res : Type} {env : Environment World} {rt : Runtime World Res}.

(** An executed action with the time it was executed at. *)
Record Stamped : Type := mkStamped {
  st_timestamp : json;
  st_name : json;
  st_kwargs : PyDict.t json;
  st_reasoning : json;
  st_result : Res;
}.

(** The entry of [execute_action] with the key [timestamp] added. *)
Definition stamped_entry (it : Stamped) : HistoryEntry Res :=
  history_entry (st_name it) (st_kwargs it) (st_reasoning it) (st_result it)
  ++ [("timestamp", FJson (st_timestamp it))].

(** The two lines of text for one entry. *)
Definition history_line (it : Stamped) : string :=
  "- " +:+ py_str (st_name it) +:+ " (" +:+ py_str (st_timestamp it) +:+ "): "
  +:+ py_str (st_reasoning it) +:+ nl +:+ "  Result: "
  +:+ res_str (st_result it).

End RenderVocabulary.

Arguments Stamped : clear implicits.


(** *** Templates written as pieces *)

(** A template that is literal text and placeholders. *)
Inductive piece : Type :=
  | Text (s : string)
  | Placeholder (name : string).

Fixpoint template_of (pieces : list piece) : string :=
  match pieces with
  | [] => EmptyString
  | Text s :: rest => s +:+ template_of rest
  | Placeholder name :: rest =>
      String ch_lbrace (name +:+ String ch_rbrace (template_of rest))
  end.

(** The template with every placeholder replaced by its value. *)
Fixpoint filled (kw : PyDict.t string) (pieces : list piece) : string :=
  match pieces with
  | [] => EmptyString
  | Text s :: rest => s +:+ filled kw rest
  | Placeholder name :: rest =>
      match PyDict.get kw name with
      | Some v => v +:+ filled kw rest
      | None => filled kw rest
      end
  end.

Fixpoint str_forall (p : ascii -> bool) (s : string) : bool :=
  match s with
  | EmptyString => true
  | String c s' => p c && str_forall p s'
  end.

(** No brace: text that [str.format] copies. *)
Definition brace_free (s : string) : bool :=
  str_forall (fun c => negb (Ascii.eqb c ch_lbrace || Ascii.eqb c ch_rbrace)) s.

(** A character that ends or structures a field. *)
Definition field_special (c : ascii) : bool :=
  Ascii.eqb c ch_lbrace || Ascii.eqb c ch_rbrace || Ascii.eqb c ch_lbracket
  || Ascii.eqb c ch_rbracket || Ascii.eqb c ch_colon || Ascii.eqb c ch_bang
  || Ascii.eqb c ch_dot.

(** A field name that is a keyword and nothing more: no index, attribute,
    conversion or format specification, and not a number. *)
Definition plain_name (name : string) : bool :=
  str_forall (fun c => negb (field_special c)) name && negb (all_digits name).

(** A piece the keyword arguments [kw] can fill. *)
Definition fits (kw : PyDict.t string) (p : piece) : Prop :=
  match p with
  | Text s => brace_free s = true
  | Placeholder name =>
      plain_name name = true /\ is_Some (PyDict.get kw name)
  end.

(** ** More of the concrete setting

    Answers with further members, an environment that is down, a vendor
    client, and an agent whose history has timestamps. *)

Module Demo2.
Import Demo.

Definition post_text : string :=
  text_of [("action", "X"); ("reasoning", "because"); ("content", "hi")].
Definition collide_text : string :=
  text_of [("action", "X"); ("action_name", "Y")].
Definition broken_text : string := text_of [("action", "broken")].
Definition mute_text : string := text_of [("action", "mute")].
Definition list_text : string := "[1, 2]".

Definition post_members : PyDict.t json :=
  [ ("action", JString "X"); ("reasoning", JString "because");
    ("content", JString "hi") ].
Definition collide_members : PyDict.t json :=
  [ ("action", JString "X"); ("action_name", JString "Y") ].

Definition loads (text : string) : result json :=
  if String.eqb text post_text then inr (JObject post_members)
  else if String.eqb text collide_text then inr (JObject collide_members)
  else if String.eqb text broken_text then
    inr (JObject [("action", JString "broken")])
  else if String.eqb text mute_text then
    inr (JObject [("action", JString "mute")])
  else if String.eqb text list_text then inr (JList [JInt 1; JInt 2])
  else Demo.loads text.

(** The runtime of [Demo] with the larger decoder. *)
Definition rt : Runtime World Res := {|
  json_loads := loads;
  json_dumps := py_repr;
  dumps_state := fun st => inr (py_repr st);
  dumps_state_descriptions := fun d => inr (py_repr d);
  res_str := fun r => r;
  format_render := fun _ _ _ _ _ => inl (ValueError "Invalid format specifier");
|}.





(** A vendor client that would answer. *)
Definition client : VendorClient World :=
  fun _ _ _ _ w => (inr wave_text, "api" :: w).

Definition stamp (t : Z) (name : string) : Stamped Res :=
  mkStamped (JInt t) (JString name) [] (JString "why") name.

(** An agent whose history has three entries with timestamps. *)
Definition stamped_agent (max_history : Z) : Agent World Res :=
  set_history (agent max_history)
    (List.map stamped_entry
       [stamp 1 "X"; stamp 2 "Y"; stamp 3 "Z"]).

(** A user template in pieces, and an agent that has it. *)
Definition user_pieces : list piece :=
  [ Text "State: "; Placeholder "state"; Text (nl +:+ "History: ");
    Placeholder "action_history"; Text "." ].

Definition pieces_agent : Agent World Res :=
  set_registry
    (Agent_init (template_of [Text "World: "; Placeholder "world_description"])
       (template_of user_pieces) [] [] 5)
    registry.

(** The world after [k] passes that each waved. *)
Definition waved (k : nat) : World :=
  List.concat (replicate k ["wave"; "generate_response"; "get_state"]).

End Demo2.

(** The names of a list, each at its first occurrence. *)
Fixpoint first_occurrences (names : list string) : list string :=
  match names with
  | [] => []
  | n :: rest =>
      n :: List.filter (fun m => negb (String.eqb m n)) (first_occurrences rest)
  end.

(** ** Vocabulary and a concrete setting for the Twitter environment *)

Section TwitterVocabulary.
Import TwitterEnv.

(** The duration fits a [timedelta]. *)
Definition duration_fits (self : t) : Prop :=
  Z.abs (cache_duration self / 86400) <= 999999999.




End TwitterVocabulary.

Module DemoTwitter.
Import TwitterEnv.

(** The clock and the log of the fetches, latest first. *)
Definition World : Type := Z * list string.

Definition values : Fetched :=
  mkFetched (JInt 7) (JInt 3) (JInt 12) (JList []) (JInt 400) (JFloat "0.0")
    (JList []).

Definition rate_limited : exn :=
  Thrown "TooManyRequests" true "429 Too Many Requests".

(** Every look at the clock takes thirty seconds; the first fetch gives
    [values], every later one is refused. *)
#[global] Instance host : Host World := {|
  datetime_now := fun w => (fst w, (fst w + 30000000, snd w));
  fetch := fun w =>
    match snd w with
    | [] => (inr values, (fst w, ["fetch"]))
    | log => (inl rate_limited, (fst w, "fetch" :: log))
    end;
|}.



(** An agent as in [Demo], in a world that holds a [TwitterEnv]. *)
Definition wave : Handler (TwitterEnv.t * World) string :=
  fun _ s => (inr "waved", s).

Definition agent : Agent (TwitterEnv.t * World) string :=
  set_registry
    (Agent_init "World: {world_description}" "{state} / {action_history}"
       [] [] 5)
    (register ActionRegistry_init "wave" (mkAction wave "waves" [] [])).

Definition rt : @Runtime (TwitterEnv.t * World) string TwitterEnv_environment :=
  @Build_Runtime (TwitterEnv.t * World) string TwitterEnv_environment
    Demo.loads py_repr
    (fun st : PyDict.t json => inr (py_repr (JObject st)))
    (fun d : PyDict.t json => inr (py_repr (JObject d)))
    (fun r => r)
    (fun _ _ _ _ _ => inl (ValueError "Invalid format specifier")).

Definition llm : LLMProvider (TwitterEnv.t * World) := {|
  generate_response := fun _ _ s => (inr Demo.wave_text, s);
|}.

End DemoTwitter.

(** * Properties *)

(** ** The bounded history as a window on everything executed *)

Lemma window_length {A} (n : nat) (l : list A) :
  length (window n l) = Nat.min (length l) n.
Proof.
  unfold window. rewrite length_drop.
  destruct (Nat.min_spec (length l) n) as [[? ->]|[? ->]]; lia.
Qed.

Lemma window_all {A} (n : nat) (l : list A) :
  (length l <= n)%nat -> window n l = l.
Proof.
  intros H. unfold window.
  replace (length l - n)%nat with 0%nat by lia. reflexivity.
Qed.

Lemma drop_S_tail_cons {A} (l : list A) (n : nat) (y : A) (t : list A) :
  drop n l = y :: t -> drop (S n) l = t.
Proof.
  revert n. induction l as [|a l IH]; intros [|n] H; simpl in *;
    try discriminate.
  - inversion H. apply drop_0.
  - apply IH. exact H.
Qed.

(** Appending and then dropping the oldest entry when over capacity keeps
    the window. *)
Lemma window_push {A} (m : Z) (l : list A) (x : A) :
  0 <= m ->
  (let h := window (Z.to_nat m) l ++ [x] in
   if Z.of_nat (length h) >? m then tail h else h)
  = window (Z.to_nat m) (l ++ [x]).
Proof.
  intros Hm. cbv zeta.
  rewrite length_app, window_length. simpl length.
  destruct (le_lt_dec (Z.to_nat m) (length l)) as [Hge|Hlt].
  - rewrite Nat.min_r by lia.
    destruct (Z.gtb_spec (Z.of_nat (Z.to_nat m + 1)) m) as [_|Hle]; [|lia].
    unfold window. rewrite length_app. simpl length.
    replace (length l + 1 - Z.to_nat m)%nat
      with (S (length l - Z.to_nat m)) by lia.
    destruct (drop (length l - Z.to_nat m) l) as [|y t] eqn:E.
    + apply (f_equal length) in E. rewrite length_drop in E. simpl in E.
      rewrite drop_ge by (rewrite length_app; simpl; lia). reflexivity.
    + pose proof (f_equal length E) as E'. rewrite length_drop in E'.
      simpl in E'. simpl. rewrite drop_app_le by lia.
      rewrite (drop_S_tail_cons l _ y t E). reflexivity.
  - rewrite Nat.min_l by lia.
    destruct (Z.gtb_spec (Z.of_nat (length l + 1)) m) as [Hgt|_]; [lia|].
    rewrite !window_all; [reflexivity | rewrite length_app; simpl; lia | lia].
Qed.

(** ** [execute_action] *)

Section ExecuteAction.
Context {World Res : Type}.
Implicit Types (a : Agent World Res) (w : World).

(** Every path through [execute_action], in one equation. *)
Lemma execute_action_cases a w action_name reasoning kwargs :
  execute_action action_name reasoning kwargs (a, w) =
  match get_action (action_registry a) action_name with
  | inl e => (inl e, (a, w))
  | inr None =>
      (inr (mkActionResult false
              ("Action '" +:+ py_str action_name +:+ "' not found") None),
       (a, w))
  | inr (Some action) =>
      match func action kwargs w with
      | (inr v, w') =>
          (inr (ok_result v),
           (set_history a (history_after a action_name reasoning kwargs v), w'))
      | (inl e, w') =>
          if is_Exception e
          then (with_str e
                  (fun text =>
                     mkActionResult false ("Action failed: " +:+ text) None),
                (a, w'))
          else (inl e, (a, w'))
      end
  end.
Proof.
  unfold execute_action, bind, get_self, lift_res. simpl.
  destruct (get_action (action_registry a) action_name) as [e|[action|]];
    try reflexivity.
  unfold try_except, bind, lift_world, history_append, history_maintain,
    history_after, bind, get_self, put_self, ret. simpl.
  destruct (func action kwargs w) as [[e|v] w']; simpl.
  - destruct (is_Exception e); [|reflexivity].
    unfold with_str. destruct (exn_str e); reflexivity.
  - destruct a; simpl.
    match goal with |- context [?x >? ?y] => destruct (x >? y) end;
      reflexivity.
Qed.

(** C5.  An action name that is not in the registry: [execute_action]
    returns, without raising, a failure result whose message carries the
    name, and neither the agent (so neither the length nor the contents of
    its history) nor the world has changed. *)
Theorem execute_action_unregistered a w (name : string) reasoning kwargs :
  PyDict.get (_actions (action_registry a)) name = None ->
  execute_action (JString name) reasoning kwargs (a, w) =
  (inr (mkActionResult false ("Action '" +:+ name +:+ "' not found") None),
   (a, w)).
Proof.
  intros Hnone. rewrite execute_action_cases. simpl. rewrite Hnone.
  reflexivity.
Qed.

(** What [execute_action] writes is what was executed. *)
Lemma history_entry_records action_name kwargs reasoning (v : Res) :
  records (history_entry action_name kwargs reasoning v)
    (mkExecution action_name kwargs reasoning v).
Proof. repeat split. Qed.

(** C4, as the code has it.  For a registered action and any parameters:
    when the handler returns [v], one entry is appended, which holds the
    name, the parameters, the reasoning and [v] under their four keys (the
    oldest entry leaves when the history is over capacity), and the result
    is a success wrapping [v]; when the handler raises an exception [e]
    that derives from [Exception], the result is a failure with the
    message [Action failed: str(e)] and the agent is as it was, unless
    [str(e)] itself raises, and then that exception leaves
    [execute_action]; an exception outside [Exception] is not caught: it
    leaves [execute_action] with the agent as it was. *)
Theorem execute_action_registered a w (name : string) action reasoning kwargs :
  PyDict.get (_actions (action_registry a)) name = Some action ->
  match func action kwargs w with
  | (inr v, w') =>
      exists entry,
        records entry (mkExecution (JString name) kwargs reasoning v)
        /\ execute_action (JString name) reasoning kwargs (a, w) =
           (inr (mkActionResult true "Action executed successfully" (Some v)),
            (set_history a
               (let h := action_history a ++ [entry] in
                if Z.of_nat (length h) >? max_history a then tail h else h),
             w'))
  | (inl e, w') =>
      (is_Exception e = true ->
       (forall text,
           exn_str e = inr text ->
           execute_action (JString name) reasoning kwargs (a, w) =
           (inr (mkActionResult false ("Action failed: " +:+ text) None),
            (a, w')))
       /\ (forall raised,
              exn_str e = inl raised ->
              execute_action (JString name) reasoning kwargs (a, w) =
              (inl raised, (a, w'))))
      /\ (is_Exception e = false ->
          execute_action (JString name) reasoning kwargs (a, w) =
          (inl e, (a, w')))
  end.
Proof.
  intros Hsome. rewrite execute_action_cases. simpl. rewrite Hsome.
  destruct (func action kwargs w) as [[e|v] w'].
  - split; [intros -> | intros ->; reflexivity].
    unfold with_str. split; [intros text -> | intros raised ->]; reflexivity.
  - exists (history_entry (JString name) kwargs reasoning v).
    split; [apply history_entry_records | reflexivity].
Qed.

End ExecuteAction.

(** ** The history after a run of successful executions *)

Section BoundedHistory.
Context {World Res : Type}.
Implicit Types (a : Agent World Res) (w : World).

Lemma execute_all_cons (c : Call) calls (s : @Sys World Res) :
  execute_all (c :: calls) s =
  match execute_action (fst (fst c)) (snd (fst c)) (snd c) s with
  | (inr r, s1) =>
      match execute_all calls s1 with
      | (inr rs, s2) => (inr (r :: rs), s2)
      | (inl e, s2) => (inl e, s2)
      end
  | (inl e, s1) => (inl e, s1)
  end.
Proof.
  destruct c as [[n r] k]. simpl. unfold bind, ret.
  destruct (execute_action n r k s) as [[e|x] s1]; [reflexivity|].
  destruct (execute_all calls s1) as [[e|rs] s2]; reflexivity.
Qed.

(** A call that reported success ran a handler that returned. *)
Lemma execute_action_success a w n r k res a1 w1 :
  execute_action n r k (a, w) = (inr res, (a1, w1)) ->
  success res = true ->
  exists v, res = ok_result v
            /\ a1 = set_history a (history_after a n r k v).
Proof.
  rewrite execute_action_cases.
  destruct (get_action (action_registry a) n) as [e|[action|]];
    [discriminate | | intros [= <- _ _]; discriminate].
  destruct (func action k w) as [[e|v] w'].
  - destruct (is_Exception e); [|discriminate].
    unfold with_str. destruct (exn_str e); [|intros [= <- _ _]]; discriminate.
  - intros [= <- <- _] _. exists v. split; reflexivity.
Qed.

Lemma execute_all_window calls : forall a w results a' w' all,
  0 <= max_history a ->
  action_history a = window (Z.to_nat (max_history a)) all ->
  execute_all calls (a, w) = (inr results, (a', w')) ->
  Forall (fun r => success r = true) results ->
  exists values,
    results = List.map ok_result values
    /\ length values = length calls
    /\ max_history a' = max_history a
    /\ action_history a' =
       window (Z.to_nat (max_history a)) (all ++ entries_of calls values).
Proof.
  induction calls as [|c calls IH]; intros a w results a' w' all Hm Hwin Hrun Hok.
  - simpl in Hrun. unfold ret in Hrun. injection Hrun as <- <- <-.
    exists []. rewrite app_nil_r. auto.
  - rewrite execute_all_cons in Hrun.
    destruct (execute_action (fst (fst c)) (snd (fst c)) (snd c) (a, w))
      as [[e|r] [a1 w1]] eqn:Hone; [discriminate|].
    destruct (execute_all calls (a1, w1)) as [[e|rs] s2] eqn:Hrest;
      [discriminate|].
    injection Hrun as <- ->.
    apply Forall_cons in Hok as [Hr Hrs].
    destruct (execute_action_success _ _ _ _ _ _ _ _ Hone Hr) as (v & -> & ->).
    set (e := history_entry (fst (fst c)) (snd c) (snd (fst c)) v).
    assert (Hpush : history_after a (fst (fst c)) (snd (fst c)) (snd c) v
                    = window (Z.to_nat (max_history a)) (all ++ [e])).
    { unfold history_after. rewrite Hwin. apply window_push. exact Hm. }
    destruct (IH (set_history a (history_after a (fst (fst c)) (snd (fst c)) (snd c) v))
                w1 rs a' w' (all ++ [e]) Hm Hpush Hrest Hrs)
      as (values & -> & Hlen & Hmax & Hhist).
    exists (v :: values). simpl in *. repeat split; auto.
    + rewrite Hhist. rewrite <- app_assoc. reflexivity.
Qed.

Lemma entries_of_record calls : forall values : list Res,
  Forall2 records (entries_of calls values) (executions calls values).
Proof.
  induction calls as [|c calls IH]; intros [|v values]; simpl;
    try apply Forall2_nil_2.
  apply Forall2_cons_2; [apply history_entry_records | apply IH].
Qed.

(** C3.  [K] successful [execute_action] calls on an agent with an empty
    history and a positive [max_history]: the history then has length
    min(K, max_history) and holds the last min(K, max_history) executed
    actions, oldest first, each entry with the name, the parameters, the
    reasoning and the returned value of its execution. *)
Theorem history_after_successes a w calls results a' w' :
  action_history a = [] ->
  0 < max_history a ->
  execute_all calls (a, w) = (inr results, (a', w')) ->
  Forall (fun r => success r = true) results ->
  exists values,
    results = List.map ok_result values
    /\ length values = length calls
    /\ let K := length calls in
       let n := Nat.min K (Z.to_nat (max_history a)) in
       length (action_history a') = n
       /\ action_history a' = drop (K - n) (entries_of calls values)
       /\ Forall2 records (action_history a')
            (drop (K - n) (executions calls values)).
Proof.
  intros Hempty Hpos Hrun Hok.
  destruct (execute_all_window calls a w results a' w' [] ltac:(lia)
              ltac:(rewrite Hempty; reflexivity) Hrun Hok)
    as (values & Hres & Hlen & _ & Hhist).
  assert (Hdrop : action_history a'
                  = drop (length calls
                          - Nat.min (length calls) (Z.to_nat (max_history a)))
                      (entries_of calls values)).
  { rewrite Hhist. simpl. unfold window, entries_of.
    rewrite length_zip_with, Hlen, Nat.min_id.
    f_equal.
    destruct (Nat.min_spec (length calls) (Z.to_nat (max_history a)))
      as [[? ->]|[? ->]]; lia. }
  exists values. split; [exact Hres|]. split; [exact Hlen|]. cbv zeta.
  split; [|split; [exact Hdrop|]].
  - rewrite Hhist. simpl. rewrite window_length.
    unfold entries_of. rewrite length_zip_with. rewrite Hlen.
    rewrite Nat.min_id. reflexivity.
  - rewrite Hdrop. apply Forall2_drop, entries_of_record.
Qed.

End BoundedHistory.

(** ** Dictionaries *)

Section PyDictFacts.
Context {V : Type}.
Implicit Types (d : PyDict.t V) (k : string) (v : V).

Lemma eqb_refl_true k : String.eqb k k = true.
Proof. apply String.eqb_refl. Qed.

Lemma eqb_false_ne k k' : k <> k' -> String.eqb k k' = false.
Proof. intros H. apply String.eqb_neq. exact H. Qed.

(** The [gmap] reading looks keys up as [get] does. *)
Lemma view_lookup d k : PyDict.view d !! k = PyDict.get d k.
Proof.
  unfold PyDict.view. induction d as [|[k' v'] d IH]; simpl.
  - apply lookup_empty.
  - destruct (String.eqb_spec k k') as [->|Hne].
    + apply lookup_insert_eq.
    + rewrite lookup_insert_ne by congruence. exact IH.
Qed.

Lemma get_set_eq d k v : PyDict.get (PyDict.set d k v) k = Some v.
Proof.
  induction d as [|[k' v'] d IH]; simpl.
  - rewrite eqb_refl_true. reflexivity.
  - destruct (String.eqb_spec k k') as [->|Hne]; simpl.
    + rewrite eqb_refl_true. reflexivity.
    + rewrite eqb_false_ne by exact Hne. exact IH.
Qed.

Lemma get_set_ne d k k' v :
  k <> k' -> PyDict.get (PyDict.set d k v) k' = PyDict.get d k'.
Proof.
  intros Hne. induction d as [|[k0 v0] d IH]; simpl.
  - rewrite eqb_false_ne by congruence. reflexivity.
  - destruct (String.eqb_spec k k0) as [->|Hne0]; simpl.
    + rewrite !eqb_false_ne by congruence. reflexivity.
    + destruct (String.eqb k' k0); [reflexivity | exact IH].
Qed.

(** Assignment is insertion in the [gmap] reading. *)
Lemma view_set d k v : PyDict.view (PyDict.set d k v) = <[k:=v]> (PyDict.view d).
Proof.
  apply map_eq. intros k'. rewrite view_lookup.
  destruct (decide (k = k')) as [<-|Hne].
  - rewrite get_set_eq, lookup_insert_eq. reflexivity.
  - rewrite get_set_ne, lookup_insert_ne, view_lookup by exact Hne.
    reflexivity.
Qed.

Lemma get_app d1 d2 k :
  PyDict.get (d1 ++ d2) k =
  match PyDict.get d1 k with Some v => Some v | None => PyDict.get d2 k end.
Proof.
  induction d1 as [|[k' v'] d1 IH]; simpl; [reflexivity|].
  destruct (String.eqb k k'); [reflexivity | exact IH].
Qed.

Lemma get_Some_keys d k : is_Some (PyDict.get d k) <-> k ∈ PyDict.keys d.
Proof.
  unfold PyDict.keys. induction d as [|[k' v'] d IH]; simpl.
  - split; [intros [? [=]] | intros H; inversion H].
  - destruct (String.eqb_spec k k') as [->|Hne].
    + split; [intros _; apply list_elem_of_here | intros _; eauto].
    + rewrite IH. split; [apply list_elem_of_further|].
      intros H. apply elem_of_cons in H as [?|?]; [congruence | assumption].
Qed.

Lemma keys_set d k v :
  PyDict.keys (PyDict.set d k v) =
  if PyDict.has_key d k then PyDict.keys d else PyDict.keys d ++ [k].
Proof.
  unfold PyDict.keys, PyDict.has_key.
  induction d as [|[k' v'] d IH]; simpl; [reflexivity|].
  destruct (String.eqb_spec k k') as [->|Hne]; simpl; [reflexivity|].
  rewrite IH. destruct (PyDict.get d k); reflexivity.
Qed.

(** Assignment never duplicates a key. *)
Lemma keys_set_NoDup d k v :
  NoDup (PyDict.keys d) -> NoDup (PyDict.keys (PyDict.set d k v)).
Proof.
  intros Hnd. rewrite keys_set. unfold PyDict.has_key.
  destruct (PyDict.get d k) eqn:E; [exact Hnd|].
  apply NoDup_app. repeat split; [exact Hnd | | apply NoDup_singleton].
  intros x Hx Hx'. apply list_elem_of_singleton in Hx' as ->.
  apply get_Some_keys in Hx as [? Hx]. congruence.
Qed.

Lemma get_map_items {U} (f : V -> U) d k :
  PyDict.get (PyDict.map_items f d) k = f <$> PyDict.get d k.
Proof.
  unfold PyDict.map_items. induction d as [|[k' v'] d IH]; simpl;
    [reflexivity|].
  destruct (String.eqb k k'); [reflexivity | exact IH].
Qed.

Lemma keys_map_items {U} (f : V -> U) d :
  PyDict.keys (PyDict.map_items f d) = PyDict.keys d.
Proof.
  unfold PyDict.keys, PyDict.map_items. rewrite List.map_map. reflexivity.
Qed.

End PyDictFacts.

(** ** The registry *)

Section Registry.
Context {World Res : Type}.
Implicit Types (r : ActionRegistry World Res) (n : string)
  (regs : list (string * Action World Res)).

Lemma register_all_cons r n action regs :
  register_all r ((n, action) :: regs) = register_all (register r n action) regs.
Proof. reflexivity. Qed.

Lemma register_all_get regs : forall r n,
  PyDict.get (_actions (register_all r regs)) n =
  match latest regs n with
  | Some action => Some action
  | None => PyDict.get (_actions r) n
  end.
Proof.
  unfold latest.
  induction regs as [|[k action] regs IH]; intros r n; [reflexivity|].
  rewrite register_all_cons, IH, reverse_cons, get_app.
  destruct (PyDict.get (reverse regs) n); [reflexivity|]. simpl.
  destruct (String.eqb_spec n k) as [->|Hne].
  - apply get_set_eq.
  - apply get_set_ne. congruence.
Qed.

Lemma register_all_NoDup regs : forall r,
  NoDup (PyDict.keys (_actions r)) ->
  NoDup (PyDict.keys (_actions (register_all r regs))).
Proof.
  induction regs as [|[k action] regs IH]; intros r Hnd; [exact Hnd|].
  rewrite register_all_cons. apply IH. simpl. apply keys_set_NoDup, Hnd.
Qed.

Lemma keys_reverse {V} (d : PyDict.t V) :
  PyDict.keys (reverse d) = reverse (PyDict.keys d).
Proof.
  unfold PyDict.keys. induction d as [|kv d IH]; [reflexivity|].
  simpl. rewrite !reverse_cons, List.map_app, IH. reflexivity.
Qed.

Lemma latest_registered regs n :
  is_Some (latest regs n) <-> n ∈ PyDict.keys regs.
Proof.
  unfold latest. rewrite get_Some_keys, keys_reverse. apply elem_of_reverse.
Qed.

(** Registering [n] a second time overrides the first registration, with
    any registrations before, between and after. *)
Lemma latest_twice (before between after : list (string * Action World Res))
    n (a1 a2 : Action World Res) k :
  latest (before ++ (n, a1) :: between ++ (n, a2) :: after) k =
  latest (before ++ between ++ (n, a2) :: after) k.
Proof.
  unfold latest.
  rewrite !reverse_app, !reverse_cons, !reverse_app, !reverse_cons.
  rewrite <- !app_assoc. rewrite !get_app. simpl.
  destruct (PyDict.get (reverse after) k); [reflexivity|].
  destruct (String.eqb k n); [reflexivity|].
  destruct (PyDict.get (reverse between) k); reflexivity.
Qed.

(** C8.  After any list of registrations, names repeated or not: the
    exported descriptions have one key per distinct registered name; each
    name maps to the description, required parameters and example of its
    most recent registration, field by field, and an [ActionDescription]
    has no handler;
    lookup returns that most recent registration; and a list in which a
    name is registered twice exports and looks up the same mapping as the
    list without the earlier of the two. *)
Theorem registry_latest_registration_wins regs :
  let registry := register_all ActionRegistry_init regs in
  let exported := get_action_descriptions registry in
  NoDup (PyDict.keys exported)
  /\ (forall n, n ∈ PyDict.keys exported <-> n ∈ PyDict.keys regs)
  /\ (forall n, PyDict.get exported n = describe <$> latest regs n)
  /\ (forall n action,
        latest regs n = Some action ->
        exists d,
          PyDict.get exported n = Some d
          /\ d_description d = description action
          /\ d_required_params d = required_params action
          /\ d_example d = example action)
  /\ (forall n, get_action registry (JString n) = inr (latest regs n))
  /\ (forall (before between after : list (string * Action World Res))
             n (a1 a2 : Action World Res),
        let twice :=
          register_all ActionRegistry_init
            (before ++ (n, a1) :: between ++ (n, a2) :: after) in
        let once :=
          register_all ActionRegistry_init
            (before ++ between ++ (n, a2) :: after) in
        PyDict.view (get_action_descriptions twice)
        = PyDict.view (get_action_descriptions once)
        /\ PyDict.view (_actions twice) = PyDict.view (_actions once)).
Proof.
  cbv zeta.
  assert (Hget : forall regs' n,
             PyDict.get (_actions (register_all ActionRegistry_init regs')) n
             = latest regs' n).
  { intros regs' n. rewrite register_all_get.
    destruct (latest regs' n); reflexivity. }
  assert (Hexp : forall regs' n,
             PyDict.get (get_action_descriptions
                           (register_all ActionRegistry_init regs')) n
             = describe <$> latest regs' n).
  { intros regs' n. unfold get_action_descriptions.
    rewrite get_map_items, Hget. reflexivity. }
  repeat split.
  - unfold get_action_descriptions. rewrite keys_map_items.
    apply register_all_NoDup. apply NoDup_nil_2.
  - intros Hin. apply latest_registered.
    apply get_Some_keys in Hin. rewrite Hexp in Hin.
    destruct (latest regs n); [eauto | destruct Hin as [? [=]]].
  - intros Hin. apply latest_registered in Hin as [action Hin].
    apply get_Some_keys. rewrite Hexp, Hin. simpl. eauto.
  - apply Hexp.
  - intros n action Hlatest. exists (describe action).
    rewrite Hexp, Hlatest. repeat split.
  - intros n. simpl. rewrite Hget. reflexivity.
  - apply map_eq. intros k. rewrite !view_lookup, !Hexp, latest_twice.
    reflexivity.
  - apply map_eq. intros k. rewrite !view_lookup, !Hget, latest_twice.
    reflexivity.
Qed.

End Registry.

(** ** What a computation does to the agent *)

Section Keeps.
Context {World Res : Type}.
Implicit Types (a : Agent World Res) (w : World).

Lemma reads_only_ret {A} (x : A) : reads_only (@ret World Res A x).
Proof. intros s. reflexivity. Qed.

Lemma reads_only_raise {A} (e : exn) : reads_only (@raise World Res A e).
Proof. intros s. reflexivity. Qed.

Lemma reads_only_get_self : reads_only (@get_self World Res).
Proof. intros s. reflexivity. Qed.

Lemma reads_only_lift_res {A} (r : result A) :
  reads_only (@lift_res World Res A r).
Proof. intros s. reflexivity. Qed.

Lemma reads_only_lift_world {A} (f : World -> result A * World) :
  reads_only (@lift_world World Res A f).
Proof. intros [a w]. unfold lift_world. simpl. destruct (f w). reflexivity. Qed.

Lemma reads_only_bind {A B} (m : @M World Res A) (k : A -> @M World Res B) :
  reads_only m -> (forall x, reads_only (k x)) -> reads_only (bind m k).
Proof.
  intros Hm Hk s. unfold bind. specialize (Hm s).
  destruct (m s) as [[e|x] s']; simpl in *; [exact Hm|].
  rewrite Hk. exact Hm.
Qed.

Lemma reads_only_keeps P {A} (m : @M World Res A) : reads_only m -> keeps P m.
Proof. intros Hm s HP. rewrite Hm. exact HP. Qed.

Lemma keeps_bind P {A B} (m : @M World Res A) (k : A -> @M World Res B) :
  keeps P m -> (forall x, keeps P (k x)) -> keeps P (bind m k).
Proof.
  intros Hm Hk s HP. unfold bind. specialize (Hm s HP).
  destruct (m s) as [[e|x] s']; simpl in *; [exact Hm|].
  apply Hk. exact Hm.
Qed.

Lemma keeps_try_except P {A} (body : @M World Res A) (handler : exn -> @M World Res A) :
  keeps P body -> (forall e, keeps P (handler e)) ->
  keeps P (try_except body handler).
Proof.
  intros Hb Hh s HP. unfold try_except. specialize (Hb s HP).
  destruct (body s) as [[e|x] s']; simpl in *; [|exact Hb].
  destruct (is_Exception e); [apply Hh|]; exact Hb.
Qed.

End Keeps.

Create HintDb agent_keeps.
#[global] Hint Resolve reads_only_ret reads_only_raise reads_only_get_self
  reads_only_lift_res reads_only_lift_world : agent_keeps.

(** ** Prompt construction *)

Section Prompts.
Context {World Res : Type}.
Context {env : Environment World} {rt : Runtime World Res}.
Implicit Types (a : Agent World Res) (w : World).

Lemma format_entry_no_timestamp action_name kwargs reasoning (result : Res) :
  format_entry (history_entry action_name kwargs reasoning result)
  = inl (KeyError "timestamp").
Proof. reflexivity. Qed.

(** The slice [history[-max_history:]] of a history that is not empty has
    a first item. *)
Lemma py_slice_from_nonempty {A} (m : Z) (l : list A) :
  0 <= m -> l <> [] ->
  exists y rest k, py_slice_from (- m) l = y :: rest /\ drop k l = y :: rest.
Proof.
  intros Hm Hne. unfold py_slice_from.
  set (k := Z.to_nat
              (if - m <? 0 then Z.max (- m + Z.of_nat (length l)) 0
               else Z.min (- m) (Z.of_nat (length l)))).
  assert (Hk : (k < length l)%nat).
  { assert (0 < length l)%nat by (destruct l; [congruence | simpl; lia]).
    subst k. destruct (Z.ltb_spec (- m) 0); lia. }
  destruct (drop k l) as [|y rest] eqn:E.
  - apply (f_equal length) in E. rewrite length_drop in E. simpl in E. lia.
  - exists y, rest, k. split; [reflexivity | exact E].
Qed.

Lemma format_action_history_empty a w :
  action_history a = [] ->
  _format_action_history (a, w) = (inr "No previous actions taken.", (a, w)).
Proof.
  intros H. unfold _format_action_history, bind, get_self. simpl.
  rewrite H. reflexivity.
Qed.

Lemma format_action_history_nonempty a w :
  action_history a <> [] ->
  Forall made_by_execute_action (action_history a) ->
  0 <= max_history a ->
  _format_action_history (a, w) = (inl (KeyError "timestamp"), (a, w)).
Proof.
  intros Hne Hall Hm.
  unfold _format_action_history, bind, get_self, lift_res. simpl.
  destruct (action_history a) as [|x t] eqn:Hh; [congruence|].
  destruct (py_slice_from_nonempty (max_history a) (x :: t) Hm Hne)
    as (y & rest & k & -> & Hdrop).
  assert (Hy : made_by_execute_action y).
  { pose proof (Forall_drop _ k _ Hall) as Hd. rewrite Hdrop in Hd.
    apply Forall_cons in Hd as [Hd _]. exact Hd. }
  destruct Hy as (n & kw & r & v & ->). reflexivity.
Qed.

(** C1, as the code has it.  With an empty history the rendering is the
    fixed sentence.  With a history that is not empty and holds entries as
    [execute_action] writes them, the rendering does not produce the lines
    the specification describes: the first entry of the window has no
    [timestamp] key and the lookup raises. *)
Theorem format_action_history_renders a w :
  (action_history a = [] ->
   _format_action_history (a, w) = (inr "No previous actions taken.", (a, w)))
  /\ (action_history a <> [] ->
      Forall made_by_execute_action (action_history a) ->
      0 < max_history a ->
      _format_action_history (a, w) = (inl (KeyError "timestamp"), (a, w))).
Proof.
  split.
  - apply format_action_history_empty.
  - intros Hne Hall Hm. apply format_action_history_nonempty; auto. lia.
Qed.

(** *** The default templates *)

Lemma default_system_template_KeyError render info world descs actions guidelines :
  str_format render DEFAULT_SYSTEM_TEMPLATE
    [ ("character_info", info); ("world_description", world);
      ("state_descriptions", descs); ("available_actions", actions);
      ("agent_guidelines", guidelines) ]
  = inl (KeyError stray_field).
Proof. vm_compute. reflexivity. Qed.

Lemma default_user_template_KeyError render state history :
  str_format render DEFAULT_USER_TEMPLATE
    [ ("state", state); ("action_history", history) ]
  = inl (KeyError "goal").
Proof. vm_compute. reflexivity. Qed.

Lemma reads_only_format_action_history :
  reads_only (_format_action_history (rt := rt)).
Proof.
  unfold _format_action_history. apply reads_only_bind; [auto with agent_keeps|].
  intros self. destruct (action_history self); [auto with agent_keeps|].
  apply reads_only_bind; auto with agent_keeps.
Qed.

Lemma reads_only_build_system_prompt :
  reads_only (build_system_prompt (rt := rt)).
Proof.
  unfold build_system_prompt.
  repeat (apply reads_only_bind; [auto with agent_keeps | intros ?]).
  auto with agent_keeps.
Qed.

Lemma reads_only_build_user_prompt state :
  reads_only (build_user_prompt (rt := rt) state).
Proof.
  unfold build_user_prompt.
  apply reads_only_bind; [apply reads_only_format_action_history | intros ?].
  repeat (apply reads_only_bind; [auto with agent_keeps | intros ?]).
  auto with agent_keeps.
Qed.

(** With the default system template, whatever the environment answers. *)
Lemma build_system_prompt_default a w :
  system_template a = DEFAULT_SYSTEM_TEMPLATE ->
  exists e w', build_system_prompt (a, w) = (inl e, (a, w'))
               /\ (forall d w1 wd w2 ds,
                     get_state_descriptions w = (inr d, w1) ->
                     get_world_description w1 = (inr wd, w2) ->
                     dumps_state_descriptions d = inr ds ->
                     e = KeyError stray_field /\ w' = w2).
Proof.
  intros Ht. unfold build_system_prompt, bind, get_self, lift_world, lift_res.
  simpl. rewrite Ht.
  destruct (get_state_descriptions w) as [[e|d] w1] eqn:Hgd; simpl.
  { exists e, w1. split; [reflexivity | intros ? ? ? ? ? [=]]. }
  destruct (get_world_description w1) as [[e|wd] w2] eqn:Hgw; simpl.
  { exists e, w2. split; [reflexivity|].
    intros ? ? ? ? ? [= <- <-] Hgw'. congruence. }
  destruct (dumps_state_descriptions d) as [e|ds] eqn:Hd; simpl.
  { exists e, w2. split; [reflexivity|].
    intros ? ? ? ? ? [= <- <-] _ Hd'. congruence. }
  rewrite default_system_template_KeyError.
  exists (KeyError stray_field), w2. split; [reflexivity|].
  intros ? ? ? ? ? [= <- <-] Hgw' _. split; congruence.
Qed.

Lemma build_user_prompt_default a w state :
  user_template a = DEFAULT_USER_TEMPLATE ->
  exists e, build_user_prompt state (a, w) = (inl e, (a, w))
            /\ (forall dumped,
                  action_history a = [] -> dumps_state state = inr dumped ->
                  e = KeyError "goal").
Proof.
  intros Ht. unfold build_user_prompt, bind.
  pose proof (reads_only_format_action_history (a, w)) as Hro.
  destruct (_format_action_history (a, w)) as [[e|history] [a1 w1]] eqn:Hf.
  - unfold _format_action_history, bind, get_self, lift_res, ret in Hf.
    simpl in Hf. destruct (action_history a) eqn:Hh; [discriminate|].
    destruct (res_mapM _ _) as [e'|lines]; [|discriminate].
    injection Hf as <- <- <-.
    exists e'. split; [reflexivity | intros ? [=]].
  - assert (a1 = a /\ w1 = w) as [-> ->].
    { unfold _format_action_history, bind, get_self, lift_res, ret in Hf.
      simpl in Hf. destruct (action_history a); [injection Hf; auto|].
      destruct (res_mapM _ _); injection Hf; auto. }
    unfold get_self, lift_res. simpl. rewrite Ht.
    destruct (dumps_state state) as [e|dumped]; simpl.
    + exists e. split; [reflexivity | intros ? _ [=]].
    + rewrite default_user_template_KeyError.
      exists (KeyError "goal"). split; [reflexivity | auto].
Qed.

(** C2, as the code has it.  With the default templates neither prompt is
    ever built: for every state, history and world both builders end in an
    exception.  Where the environment and [json.dumps] return, the system
    prompt fails on the field named by the text after the first single
    brace of the JSON example, and with an empty history the user prompt
    fails on [goal], a placeholder the builder does not supply. *)
Theorem default_templates_raise a w state :
  system_template a = DEFAULT_SYSTEM_TEMPLATE ->
  user_template a = DEFAULT_USER_TEMPLATE ->
  (exists e w',
      build_system_prompt (a, w) = (inl e, (a, w'))
      /\ (forall d w1 wd w2 ds,
            get_state_descriptions w = (inr d, w1) ->
            get_world_description w1 = (inr wd, w2) ->
            dumps_state_descriptions d = inr ds ->
            e = KeyError stray_field /\ w' = w2))
  /\ (exists e,
        build_user_prompt state (a, w) = (inl e, (a, w))
        /\ (forall dumped,
              action_history a = [] -> dumps_state state = inr dumped ->
              e = KeyError "goal")).
Proof.
  intros Hs Hu. split.
  - apply build_system_prompt_default, Hs.
  - apply build_user_prompt_default, Hu.
Qed.

End Prompts.

(** ** Next action and the loop *)

Section Loop.
Context {World Res : Type}.
Context {env : Environment World} {rt : Runtime World Res}
  {llm : LLMProvider World}.
Implicit Types (a : Agent World Res) (w : World).

(** [get_next_action] once the prompts are built and the provider has
    answered [text]. *)
Lemma get_next_action_answer a w state system_prompt w1 user_prompt text w2 :
  build_system_prompt (a, w) = (inr system_prompt, (a, w1)) ->
  build_user_prompt state (a, w1) = (inr user_prompt, (a, w1)) ->
  generate_response system_prompt user_prompt w1 = (inr text, w2) ->
  get_next_action state (a, w) = (next_action_of (json_loads text), (a, w2)).
Proof.
  intros Hs Hu Hg. unfold get_next_action, bind.
  rewrite Hs, Hu. unfold lift_world. simpl. rewrite Hg.
  destruct (json_loads text) as [e|action_data]; [|reflexivity].
  simpl. destruct (is_JSONDecodeError e); reflexivity.
Qed.

(** C6, as the code has it.  For every text the provider answers: when
    [json.loads] rejects it with a [JSONDecodeError], [get_next_action]
    raises the format error to its caller and returns no mapping; when
    [json.loads] decodes it, [get_next_action] returns the decoded value
    unchanged, whatever its shape; and when [json.loads] raises anything
    else (a text nested too deep, an integer of too many digits), that
    exception leaves [get_next_action] as it is, not as a format error. *)
Theorem get_next_action_decodes a w state system_prompt w1 user_prompt text w2 :
  build_system_prompt (a, w) = (inr system_prompt, (a, w1)) ->
  build_user_prompt state (a, w1) = (inr user_prompt, (a, w1)) ->
  generate_response system_prompt user_prompt w1 = (inr text, w2) ->
  (forall msg,
      json_loads text = inl (JSONDecodeError msg) ->
      get_next_action state (a, w) =
      (inl (ValueError "LLM response was not in the expected JSON format"),
       (a, w2)))
  /\ (forall action_data,
        json_loads text = inr action_data ->
        get_next_action state (a, w) = (inr action_data, (a, w2)))
  /\ (forall e,
        json_loads text = inl e ->
        is_JSONDecodeError e = false ->
        get_next_action state (a, w) = (inl e, (a, w2))).
Proof.
  intros Hs Hu Hg.
  rewrite (get_next_action_answer _ _ _ _ _ _ _ _ Hs Hu Hg).
  split; [intros msg -> | split; [intros v -> | intros e -> He]];
    simpl; rewrite ?He; reflexivity.
Qed.

(** One pass of the loop after an answer that decodes to a dict. *)
Lemma loop_pass_object a w state w0 system_prompt w1 user_prompt text w2 members :
  get_state w = (inr state, w0) ->
  build_system_prompt (a, w0) = (inr system_prompt, (a, w1)) ->
  build_user_prompt state (a, w1) = (inr user_prompt, (a, w1)) ->
  generate_response system_prompt user_prompt w1 = (inr text, w2) ->
  json_loads text = inr (JObject members) ->
  loop_pass (a, w) =
  match PyDict.pop members "action" with
  | inl e => (inl e, (a, w2))
  | inr (action_name, rest) =>
      let popped := PyDict.pop_default rest "reasoning" (JString EmptyString) in
      call_execute_action action_name (fst popped) (snd popped) (a, w2)
  end.
Proof.
  intros Hst Hs Hu Hg Hj. unfold loop_pass, bind at 1.
  unfold lift_world at 1. simpl. rewrite Hst.
  unfold bind at 1.
  rewrite (get_next_action_answer _ _ _ _ _ _ _ _ Hs Hu Hg), Hj.
  unfold bind, lift_res. simpl.
  destruct (PyDict.pop members "action") as [e|[action_name rest]];
    reflexivity.
Qed.

Lemma run_steps_zero (step : nat) (s : @Sys World Res) :
  run_steps 0 step s = (inr (Completed, step), s).
Proof. reflexivity. Qed.

(** One turn of the [for]: what the pass did decides how the loop goes on. *)
Lemma run_steps_succ (remaining step : nat) (s : @Sys World Res) :
  run_steps (S remaining) step s =
  match loop_pass s with
  | (inr result, s') =>
      if success result then run_steps remaining (S step) s'
      else (inr (StoppedOnFailure (message result), S step), s')
  | (inl e, s') => (stop_on e (S step), s')
  end.
Proof.
  simpl. unfold loop_body, try_except, bind at 1 2.
  destruct (loop_pass s) as [[e|result] s']; simpl.
  - unfold stop_on, with_str, bind, lift_res, print, ret.
    destruct (is_Exception e); [|reflexivity].
    destruct (exn_str e); reflexivity.
  - destruct (success result); reflexivity.
Qed.

(** A pass that raised an exception which derives from [Exception] and can
    be printed. *)
Lemma stop_on_printable e text steps :
  is_Exception e = true -> exn_str e = inr text ->
  stop_on e steps = inr (StoppedOnError e, steps).
Proof. intros He Hs. unfold stop_on, with_str. rewrite He, Hs. reflexivity. Qed.

(** What [stop_on] can be. *)
Lemma stop_on_cases e steps :
  match stop_on e steps with
  | inl raised =>
      (is_Exception e = false /\ raised = e)
      \/ (is_Exception e = true /\ exn_str e = inl raised)
  | inr (st, n) =>
      st = StoppedOnError e /\ n = steps /\ is_Exception e = true
      /\ exists text, exn_str e = inr text
  end.
Proof.
  unfold stop_on, with_str. destruct (is_Exception e) eqn:He; [|left; auto].
  destruct (exn_str e) as [raised|text] eqn:Hs; [right; auto|].
  repeat split. exists text. reflexivity.
Qed.




(** C10.  The provider's answer decodes to a dict without the key
    [action]: the pass raises [KeyError] at the extraction, before
    [execute_action] is reached, the loop catches it and ends as an error
    stop after that pass, and the agent, with its history, is as it was;
    the world is as the provider left it. *)
Theorem missing_action_key_stops a w (max_steps : Z) state w0
    system_prompt w1 user_prompt text w2 members :
  0 < max_steps ->
  get_state w = (inr state, w0) ->
  build_system_prompt (a, w0) = (inr system_prompt, (a, w1)) ->
  build_user_prompt state (a, w1) = (inr user_prompt, (a, w1)) ->
  generate_response system_prompt user_prompt w1 = (inr text, w2) ->
  json_loads text = inr (JObject members) ->
  PyDict.get members "action" = None ->
  loop_pass (a, w) = (inl (KeyError "action"), (a, w2))
  /\ run_loop max_steps (a, w) =
     (inr (StoppedOnError (KeyError "action"), 1%nat), (a, w2)).
Proof.
  intros Hpos Hst Hs Hu Hg Hj Hnone.
  assert (Hpass : loop_pass (a, w) = (inl (KeyError "action"), (a, w2))).
  { rewrite (loop_pass_object _ _ _ _ _ _ _ _ _ _ Hst Hs Hu Hg Hj).
    unfold PyDict.pop. rewrite Hnone. reflexivity. }
  split; [exact Hpass|].
  unfold run_loop. destruct (Z.to_nat max_steps) as [|n] eqn:Hn; [lia|].
  rewrite run_steps_succ, Hpass. reflexivity.
Qed.

(** *** The bound on the history *)

Lemma keeps_execute_action action_name reasoning kwargs :
  keeps history_bounded
    (execute_action (World := World) (Res := Res) action_name reasoning kwargs).
Proof.
  intros [a w] Hb. simpl in Hb. rewrite execute_action_cases.
  destruct (get_action (action_registry a) action_name) as [e|[action|]];
    [exact Hb | | exact Hb].
  destruct (func action kwargs w) as [[e|v] w'].
  - destruct (is_Exception e); exact Hb.
  - unfold history_bounded, history_after in *. simpl.
    rewrite length_app. simpl length.
    destruct (Z.gtb_spec (Z.of_nat (length (action_history a) + 1))
                (max_history a)) as [Hgt|Hle].
    + destruct (action_history a); simpl in *; [lia|].
      rewrite length_app. simpl. lia.
    + rewrite length_app. simpl. lia.
Qed.

Lemma keeps_register_action name func description required_params example :
  keeps history_bounded
    (register_action (World := World) (Res := Res)
       name func description required_params example).
Proof. intros [a w] Hb. exact Hb. Qed.

Lemma reads_only_get_next_action state : reads_only (get_next_action state).
Proof.
  unfold get_next_action.
  apply reads_only_bind; [apply reads_only_build_system_prompt | intros ?].
  apply reads_only_bind; [apply reads_only_build_user_prompt | intros ?].
  apply reads_only_bind; [auto with agent_keeps | intros content].
  destruct (json_loads content) as [e|action_data];
    [destruct (is_JSONDecodeError e)|]; auto with agent_keeps.
Qed.

Lemma keeps_loop_pass : keeps history_bounded loop_pass.
Proof.
  unfold loop_pass.
  apply keeps_bind; [apply reads_only_keeps; auto with agent_keeps | intros ?].
  apply keeps_bind;
    [apply reads_only_keeps, reads_only_get_next_action | intros ?].
  apply keeps_bind; [apply reads_only_keeps; auto with agent_keeps | intros ?].
  unfold call_execute_action.
  match goal with |- context [if ?c then _ else _] => destruct c end.
  - apply reads_only_keeps. auto with agent_keeps.
  - apply keeps_execute_action.
Qed.

Lemma keeps_loop_body : keeps history_bounded loop_body.
Proof.
  unfold loop_body. apply keeps_try_except.
  - apply keeps_bind; [apply keeps_loop_pass | intros result].
    apply reads_only_keeps.
    destruct (negb (success result));
      (apply reads_only_bind; [|intros ?]); unfold print, sleep;
      auto with agent_keeps.
  - intros e. apply reads_only_keeps.
    repeat (apply reads_only_bind; [|intros ?]); unfold print;
      auto with agent_keeps.
Qed.

Lemma keeps_run_steps remaining : forall step,
  keeps history_bounded (run_steps remaining step).
Proof.
  induction remaining as [|remaining IH]; intros step.
  - apply reads_only_keeps. simpl. auto with agent_keeps.
  - simpl. apply keeps_bind; [apply keeps_loop_body | intros st].
    destruct st; [apply IH | ..]; apply reads_only_keeps;
      auto with agent_keeps.
Qed.

(** C9.  An agent with a positive [max_history] and a history no longer
    than it: after [register_action], [execute_action] with any outcome,
    either prompt builder, [get_next_action] or [run_loop], whether the
    operation returned or raised, the history is still no longer than
    [max_history]. *)
Theorem history_stays_bounded a w :
  0 < max_history a ->
  history_bounded a ->
  (forall name func description required_params example,
      history_bounded
        (fst (snd (register_action name func description required_params
                     example (a, w)))))
  /\ (forall action_name reasoning kwargs,
        history_bounded
          (fst (snd (execute_action action_name reasoning kwargs (a, w)))))
  /\ history_bounded (fst (snd (build_system_prompt (a, w))))
  /\ (forall state, history_bounded (fst (snd (build_user_prompt state (a, w)))))
  /\ (forall state, history_bounded (fst (snd (get_next_action state (a, w)))))
  /\ (forall max_steps, history_bounded (fst (snd (run_loop max_steps (a, w))))).
Proof.
  intros _ Hb. repeat split; intros.
  - apply (keeps_register_action _ _ _ _ _ (a, w) Hb).
  - apply (keeps_execute_action _ _ _ (a, w) Hb).
  - rewrite reads_only_build_system_prompt. exact Hb.
  - rewrite reads_only_build_user_prompt. exact Hb.
  - rewrite reads_only_get_next_action. exact Hb.
  - apply (keeps_run_steps _ _ (a, w) Hb).
Qed.

End Loop.

(** * The definitions at work on concrete inputs *)

Section Runs.
Import Demo.

(** One successful [wave] leaves the agent [after_wave]. *)
Example wave_once :
  execute_action (JString "wave") (JString "greet") [] (agent 2, [])
  = (inr (ok_result "waved"), (after_wave 2, ["wave"])).
Proof. reflexivity. Qed.

(** Scenario D of the specification: [max_history = 2], then X, Y, Z. *)
Example scenario_D :
  action_history (fst (snd (execute_all [call "X"; call "Y"; call "Z"] (agent 2, []))))
  = [ [ ("name", FJson (JString "Y")); ("parameters", FJson (JObject []));
        ("reasoning", FJson (JString EmptyString)); ("result", FRes "y") ];
      [ ("name", FJson (JString "Z")); ("parameters", FJson (JObject []));
        ("reasoning", FJson (JString EmptyString)); ("result", FRes "z") ] ].
Proof. reflexivity. Qed.

(** Scenarios A, B and C of the specification. *)
Example scenario_A :
  run_loop (llm := answering wave_text) 1 (agent 5, [])
  = (inr (Completed, 1%nat),
     (after_wave 5, ["wave"; "generate_response"; "get_state"])).
Proof. reflexivity. Qed.

Example scenario_B :
  run_loop (llm := answering nonexistent_text) 5 (agent 5, [])
  = (inr (StoppedOnFailure "Action 'nonexistent' not found", 1%nat),
     (agent 5, ["generate_response"; "get_state"])).
Proof. reflexivity. Qed.

Example scenario_C :
  run_loop (llm := answering "not json") 5 (agent 5, [])
  = (inr (StoppedOnError format_error, 1%nat),
     (agent 5, ["generate_response"; "get_state"])).
Proof. reflexivity. Qed.

(** After a first successful pass the second cannot build its user prompt:
    the history is no longer empty. *)
Example second_pass_stops :
  run_loop (llm := answering wave_text) 3 (agent 5, [])
  = (inr (StoppedOnError (KeyError "timestamp"), 2%nat),
     (after_wave 5,
      ["get_state"; "wave"; "generate_response"; "get_state"])).
Proof. reflexivity. Qed.

(** With the default templates the provider is never asked. *)
Example default_templates_first_pass :
  run_loop (llm := answering wave_text) 3 (default_agent, [])
  = (inr (StoppedOnError (KeyError stray_field), 1%nat),
     (default_agent, ["get_state"])).
Proof. vm_compute. reflexivity. Qed.

(** *** The theorems applied *)

Lemma format_action_history_renders_witness :
  action_history (after_wave 2) <> []
  /\ Forall made_by_execute_action (action_history (after_wave 2))
  /\ 0 < max_history (after_wave 2)
  /\ _format_action_history (after_wave 2, [])
     = (inl (KeyError "timestamp"), (after_wave 2, [])).
Proof.
  assert (H1 : action_history (after_wave 2) <> []) by discriminate.
  assert (H2 : Forall made_by_execute_action (action_history (after_wave 2))).
  { repeat constructor. do 4 eexists. reflexivity. }
  assert (H3 : 0 < max_history (after_wave 2)) by reflexivity.
  split; [exact H1|]. split; [exact H2|]. split; [exact H3|].
  exact (proj2 (format_action_history_renders (after_wave 2) []) H1 H2 H3).
Defined.

Lemma default_templates_raise_witness :
  system_template default_agent = DEFAULT_SYSTEM_TEMPLATE
  /\ user_template default_agent = DEFAULT_USER_TEMPLATE
  /\ (exists e w', build_system_prompt (default_agent, []) = (inl e, (default_agent, w')))
  /\ (exists e, build_user_prompt (JObject []) (default_agent, [])
                = (inl e, (default_agent, []))).
Proof.
  split; [reflexivity|]. split; [reflexivity|].
  destruct (default_templates_raise (env := env) (rt := rt) default_agent [] (JObject [])
              eq_refl eq_refl) as [(e & w' & Hs & _) (e' & Hu & _)].
  split; [exists e, w'; exact Hs | exists e'; exact Hu].
Defined.

Lemma history_after_successes_witness :
  exists values,
    [ok_result "x"; ok_result "y"; ok_result "z"] = List.map ok_result values
    /\ length values = 3%nat
    /\ length (action_history
                 (fst (snd (execute_all [call "X"; call "Y"; call "Z"] (agent 2, [])))))
       = 2%nat
    /\ action_history
         (fst (snd (execute_all [call "X"; call "Y"; call "Z"] (agent 2, []))))
       = drop 1 (entries_of [call "X"; call "Y"; call "Z"] values)
    /\ Forall2 records
         (action_history
            (fst (snd (execute_all [call "X"; call "Y"; call "Z"] (agent 2, [])))))
         [ mkExecution (JString "Y") [] (JString EmptyString) "y";
           mkExecution (JString "Z") [] (JString EmptyString) "z" ].
Proof.
  destruct (history_after_successes (agent 2) []
              [call "X"; call "Y"; call "Z"]
              [ok_result "x"; ok_result "y"; ok_result "z"]
              (fst (snd (execute_all [call "X"; call "Y"; call "Z"] (agent 2, []))))
              ["z"; "y"; "x"]
              eq_refl eq_refl eq_refl
              ltac:(repeat constructor))
    as (values & Hres & Hlen & Hn & Hh & Hrec).
  exists values. split; [exact Hres|]. split; [exact Hlen|].
  split; [exact Hn|]. split; [exact Hh|].
  assert (Hv : values = ["x"; "y"; "z"]).
  { destruct values as [|v1 [|v2 [|v3 [|]]]]; try discriminate.
    injection Hres as -> -> ->. reflexivity. }
  rewrite Hv in Hrec. exact Hrec.
Defined.

Lemma execute_action_registered_witness :
  execute_action (JString "broken") (JString "try") [] (agent 2, [])
  = (inr (mkActionResult false "Action failed: no hands" None),
     (agent 2, ["broken"]))
  /\ execute_action (JString "mute") (JString "try") [] (agent 2, [])
     = (inl (Thrown "RuntimeError" true "no words"), (agent 2, ["mute"]))
  /\ exists entry,
       records entry
         (mkExecution (JString "X") [("content", JString "hi")]
            (JString "because") "x")
       /\ execute_action (JString "X") (JString "because")
            [("content", JString "hi")] (after_wave 1, [])
          = (inr (mkActionResult true "Action executed successfully" (Some "x")),
             (set_history (after_wave 1) [entry], ["x"])).
Proof.
  split; [|split].
  - exact (proj1 (proj1 (execute_action_registered (agent 2) [] "broken"
                           (plain_action broken) (JString "try") [] eq_refl)
                    eq_refl) "no hands" eq_refl).
  - exact (proj2 (proj1 (execute_action_registered (agent 2) [] "mute"
                           (plain_action mute) (JString "try") [] eq_refl)
                    eq_refl) (Thrown "RuntimeError" true "no words") eq_refl).
  - exact (execute_action_registered (after_wave 1) [] "X"
             (plain_action (echo "x")) (JString "because")
             [("content", JString "hi")] eq_refl).
Defined.

(** A registered handler that raises [SystemExit]: [execute_action] does
    not return a failure result, it raises. *)
Lemma execute_action_exit_not_caught :
  PyDict.get (_actions (action_registry (agent 2))) "quit"
  = Some (plain_action quit)
  /\ quit [] [] = (inl (Thrown "SystemExit" false EmptyString), ["quit"])
  /\ execute_action (JString "quit") (JString "bye") [] (agent 2, [])
     = (inl (Thrown "SystemExit" false EmptyString), (agent 2, ["quit"]))
  /\ ~ (exists r s,
           execute_action (JString "quit") (JString "bye") [] (agent 2, [])
           = (inr r, s)).
Proof.
  repeat split; try reflexivity.
  intros (r & s & H). discriminate H.
Qed.

Lemma execute_action_unregistered_witness :
  PyDict.get (_actions (action_registry (after_wave 2))) "nonexistent" = None
  /\ execute_action (JString "nonexistent") (JString EmptyString) []
       (after_wave 2, [])
     = (inr (mkActionResult false "Action 'nonexistent' not found" None),
        (after_wave 2, [])).
Proof.
  split; [reflexivity|].
  exact (execute_action_unregistered (after_wave 2) [] "nonexistent"
           (JString EmptyString) [] eq_refl).
Defined.

Lemma get_next_action_decodes_witness :
  get_next_action (llm := answering "not json") (JObject []) (agent 2, [])
  = (inl (ValueError "LLM response was not in the expected JSON format"),
     (agent 2, ["generate_response"]))
  /\ get_next_action (llm := answering wave_text) (JObject []) (agent 2, [])
     = (inr (JObject [("action", JString "wave"); ("reasoning", JString "greet")]),
        (agent 2, ["generate_response"]))
  /\ get_next_action (llm := answering deep_text) (JObject []) (agent 2, [])
     = (inl too_deep, (agent 2, ["generate_response"])).
Proof.
  split; [|split].
  - exact (proj1 (get_next_action_decodes (env := env) (rt := rt)
                    (llm := answering "not json")
                    (agent 2) [] (JObject []) "World: a quiet room" []
                    "{} / No previous actions taken." "not json"
                    ["generate_response"] eq_refl eq_refl eq_refl)
             "Expecting value: line 1 column 1 (char 0)" eq_refl).
  - exact (proj1 (proj2 (get_next_action_decodes (env := env) (rt := rt)
                           (llm := answering wave_text)
                           (agent 2) [] (JObject []) "World: a quiet room" []
                           "{} / No previous actions taken." wave_text
                           ["generate_response"] eq_refl eq_refl eq_refl))
             _ eq_refl).
  - apply (proj2 (proj2 (get_next_action_decodes (env := env) (rt := rt)
                           (llm := answering deep_text)
                           (agent 2) [] (JObject []) "World: a quiet room" []
                           "{} / No previous actions taken." deep_text
                           ["generate_response"] eq_refl eq_refl eq_refl))
             too_deep).
    + vm_compute. reflexivity.
    + reflexivity.
Defined.

(** A text nested deeper than [json.loads] follows: what leaves
    [get_next_action] is the [RecursionError], which is neither the format
    error nor a decoded value. *)
Lemma get_next_action_too_deep :
  json_loads deep_text = inl too_deep
  /\ is_JSONDecodeError too_deep = false
  /\ get_next_action (llm := answering deep_text) (JObject []) (agent 2, [])
     = (inl too_deep, (agent 2, ["generate_response"]))
  /\ too_deep <> format_error
  /\ ~ (exists action_data s,
           get_next_action (llm := answering deep_text) (JObject [])
             (agent 2, [])
           = (inr action_data, s)).
Proof.
  assert (H : get_next_action (llm := answering deep_text) (JObject [])
                (agent 2, [])
              = (inl too_deep, (agent 2, ["generate_response"])))
    by (vm_compute; reflexivity).
  split; [vm_compute; reflexivity|]. split; [reflexivity|].
  split; [exact H|]. split; [discriminate|].
  intros (action_data & s & H'). rewrite H in H'. discriminate H'.
Qed.


Lemma history_stays_bounded_witness :
  0 < max_history (after_wave 1)
  /\ history_bounded (after_wave 1)
  /\ history_bounded
       (fst (snd (execute_action (JString "X") (JString EmptyString) []
                    (after_wave 1, []))))
  /\ history_bounded
       (fst (snd (run_loop (llm := answering wave_text) 3 (after_wave 1, [])))).
Proof.
  assert (H1 : 0 < max_history (after_wave 1)) by reflexivity.
  assert (H2 : history_bounded (after_wave 1)) by (unfold history_bounded; simpl; lia).
  destruct (history_stays_bounded (llm := answering wave_text)
              (after_wave 1) [] H1 H2) as (_ & He & _ & _ & _ & Hr).
  split; [exact H1|]. split; [exact H2|]. split; [apply He | apply Hr].
Defined.

Lemma missing_action_key_stops_witness :
  loop_pass (llm := answering no_action_text) (agent 0, [])
  = (inl (KeyError "action"),
     (agent 0, ["generate_response"; "get_state"]))
  /\ run_loop (llm := answering no_action_text) 4 (agent 3, [])
     = (inr (StoppedOnError (KeyError "action"), 1%nat),
        (agent 3, ["generate_response"; "get_state"])).
Proof.
  split.
  - exact (proj1 (missing_action_key_stops (env := env) (rt := rt)
                    (llm := answering no_action_text)
                    (agent 0) [] 1 (JObject [("followers", JInt 7)])
                    ["get_state"] "World: a quiet room" ["get_state"]
                    "{'followers': 7} / No previous actions taken."
                    no_action_text ["generate_response"; "get_state"]
                    [("reasoning", JString "idle")]
                    eq_refl eq_refl eq_refl eq_refl eq_refl eq_refl eq_refl)).
  - exact (proj2 (missing_action_key_stops (env := env) (rt := rt)
                    (llm := answering no_action_text)
                    (agent 3) [] 4 (JObject [("followers", JInt 7)])
                    ["get_state"] "World: a quiet room" ["get_state"]
                    "{'followers': 7} / No previous actions taken."
                    no_action_text ["generate_response"; "get_state"]
                    [("reasoning", JString "idle")]
                    eq_refl eq_refl eq_refl eq_refl eq_refl eq_refl eq_refl)).
Defined.

End Runs.

(** * Further properties *)

(** ** Dictionaries: removing a key *)

Section PyDictRemove.
Context {V : Type}.
Implicit Types (d : PyDict.t V) (k : string) (v : V).

Lemma get_remove_eq d k : PyDict.get (PyDict.remove d k) k = None.
Proof.
  unfold PyDict.remove. induction d as [|[k' v'] d IH]; simpl; [reflexivity|].
  destruct (String.eqb_spec k k') as [->|Hne]; simpl; [exact IH|].
  rewrite eqb_false_ne by exact Hne. exact IH.
Qed.

Lemma get_remove_ne d k k' :
  k <> k' -> PyDict.get (PyDict.remove d k) k' = PyDict.get d k'.
Proof.
  intros Hne. unfold PyDict.remove.
  induction d as [|[k0 v0] d IH]; simpl; [reflexivity|].
  destruct (String.eqb_spec k k0) as [->|Hne0]; simpl.
  - rewrite eqb_false_ne by congruence. exact IH.
  - destruct (String.eqb k' k0); [reflexivity | exact IH].
Qed.

Lemma remove_absent d k : PyDict.get d k = None -> PyDict.remove d k = d.
Proof.
  unfold PyDict.remove. induction d as [|[k' v'] d IH]; simpl; [reflexivity|].
  destruct (String.eqb_spec k k') as [->|Hne]; simpl; [discriminate|].
  intros H. rewrite IH by exact H. reflexivity.
Qed.

(** [d.pop(k, default)] in terms of lookup and removal. *)
Lemma pop_default_spec d k (default : V) :
  PyDict.pop_default d k default =
  (match PyDict.get d k with Some v => v | None => default end,
   PyDict.remove d k).
Proof.
  unfold PyDict.pop_default.
  destruct (PyDict.get d k) eqn:E; [reflexivity|].
  rewrite remove_absent by exact E. reflexivity.
Qed.

End PyDictRemove.

(** ** One pass of the loop, case by case *)

Section LoopPasses.
Context {World Res : Type}.
Context {env : Environment World} {rt : Runtime World Res}
  {llm : LLMProvider World}.
Implicit Types (a : Agent World Res) (w : World).

Lemma run_loop_pass_stops (max_steps : Z) (s s' : @Sys World Res) e :
  0 < max_steps ->
  loop_pass s = (inl e, s') ->
  run_loop max_steps s = (stop_on e 1, s').
Proof.
  intros Hpos Hpass. unfold run_loop.
  destruct (Z.to_nat max_steps) as [|n] eqn:Hn; [lia|].
  rewrite run_steps_succ, Hpass. reflexivity.
Qed.

Lemma run_loop_pass_raises (max_steps : Z) (s s' : @Sys World Res) e text :
  0 < max_steps ->
  loop_pass s = (inl e, s') ->
  is_Exception e = true ->
  exn_str e = inr text ->
  run_loop max_steps s = (inr (StoppedOnError e, 1%nat), s').
Proof.
  intros Hpos Hpass He Hs.
  rewrite (run_loop_pass_stops _ _ _ _ Hpos Hpass).
  rewrite (stop_on_printable _ _ _ He Hs). reflexivity.
Qed.

Lemma run_loop_pass_fails (max_steps : Z) (s s' : @Sys World Res) result :
  0 < max_steps ->
  loop_pass s = (inr result, s') ->
  success result = false ->
  run_loop max_steps s = (inr (StoppedOnFailure (message result), 1%nat), s').
Proof.
  intros Hpos Hpass Hr. unfold run_loop.
  destruct (Z.to_nat max_steps) as [|n] eqn:Hn; [lia|].
  rewrite run_steps_succ, Hpass, Hr. reflexivity.
Qed.

(** A pass after the provider has answered. *)
Lemma loop_pass_answered a w text w2 :
  answers a w text w2 ->
  loop_pass (a, w) =
  match next_action_of (json_loads text) with
  | inl e => (inl e, (a, w2))
  | inr action_data =>
      match pop_action action_data with
      | inl e => (inl e, (a, w2))
      | inr (action_name, rest) =>
          call_execute_action action_name (reasoning_of rest)
            (PyDict.remove rest "reasoning") (a, w2)
      end
  end.
Proof.
  intros (state & w0 & sp & w1 & up & Hst & Hs & Hu & Hg).
  unfold loop_pass, bind at 1. unfold lift_world at 1. simpl. rewrite Hst.
  unfold bind at 1.
  rewrite (get_next_action_answer _ _ _ _ _ _ _ _ Hs Hu Hg).
  destruct (next_action_of (json_loads text)) as [e|action_data];
    [reflexivity|].
  unfold bind, lift_res.
  destruct (pop_action action_data) as [e|[action_name rest]]; [reflexivity|].
  cbn [fst snd]. rewrite pop_default_spec. reflexivity.
Qed.

Lemma pop_action_object members action_name :
  PyDict.get members "action" = Some action_name ->
  pop_action (JObject members)
  = inr (action_name, PyDict.remove members "action").
Proof. intros H. simpl. unfold PyDict.pop. rewrite H. reflexivity. Qed.

Lemma reasoning_of_remove_action members :
  reasoning_of (PyDict.remove members "action") = reasoning_of members.
Proof.
  unfold reasoning_of. rewrite get_remove_ne by discriminate. reflexivity.
Qed.

(** The pass that reaches [execute_action]. *)
Lemma loop_pass_dispatch a w text w2 members action_name :
  answers a w text w2 ->
  json_loads text = inr (JObject members) ->
  PyDict.get members "action" = Some action_name ->
  PyDict.has_key (parameters_of members) "action_name" = false ->
  PyDict.has_key (parameters_of members) "self" = false ->
  loop_pass (a, w)
  = execute_action action_name (reasoning_of members) (parameters_of members)
      (a, w2).
Proof.
  intros Hans Hj Hact Hn Hs. unfold parameters_of in *.
  rewrite (loop_pass_answered _ _ _ _ Hans), Hj. cbn [next_action_of].
  rewrite (pop_action_object _ _ Hact), reasoning_of_remove_action.
  unfold call_execute_action. rewrite Hn, Hs. reflexivity.
Qed.

(** X1.  The keys [action] and [reasoning] are taken out of the answer;
    every other member is forwarded, and forwarded unchanged: when none of
    them collides with a parameter of [execute_action], the pass is the
    call of [execute_action] with the answer's action, its reasoning (the
    empty string when it has none) and the remaining members as
    parameters. *)
Theorem loop_pass_forwards a w text w2 members action_name :
  answers a w text w2 ->
  json_loads text = inr (JObject members) ->
  PyDict.get members "action" = Some action_name ->
  PyDict.has_key (parameters_of members) "action_name" = false ->
  PyDict.has_key (parameters_of members) "self" = false ->
  loop_pass (a, w)
  = execute_action action_name (reasoning_of members) (parameters_of members)
      (a, w2)
  /\ PyDict.get (parameters_of members) "action" = None
  /\ PyDict.get (parameters_of members) "reasoning" = None
  /\ (forall k, k <> "action" -> k <> "reasoning" ->
        PyDict.get (parameters_of members) k = PyDict.get members k).
Proof.
  intros Hans Hj Hact Hn Hs.
  split; [exact (loop_pass_dispatch _ _ _ _ _ _ Hans Hj Hact Hn Hs)|].
  unfold parameters_of. repeat split.
  - rewrite get_remove_ne by discriminate. apply get_remove_eq.
  - apply get_remove_eq.
  - intros k Hk Hk'. rewrite !get_remove_ne by congruence. reflexivity.
Qed.

(** X2.  An answer with a member called [action_name] or [self]: the call of
    [execute_action] cannot bind its arguments, so no handler runs; the
    loop ends after that pass as an error stop and the agent is as it
    was. *)
Theorem colliding_parameter_stops a w text w2 members action_name (max_steps : Z) :
  0 < max_steps ->
  answers a w text w2 ->
  json_loads text = inr (JObject members) ->
  PyDict.get members "action" = Some action_name ->
  PyDict.has_key (parameters_of members) "action_name"
  || PyDict.has_key (parameters_of members) "self" = true ->
  run_loop max_steps (a, w)
  = (inr (StoppedOnError
            (TypeError "execute_action() got multiple values for argument"),
          1%nat),
     (a, w2)).
Proof.
  intros Hpos Hans Hj Hact Hcol.
  eapply run_loop_pass_raises; [exact Hpos | | reflexivity | reflexivity].
  rewrite (loop_pass_answered _ _ _ _ Hans), Hj. cbn [next_action_of].
  rewrite (pop_action_object _ _ Hact).
  unfold call_execute_action, parameters_of in *. rewrite Hcol. reflexivity.
Qed.

(** X3.  An answer that decodes to something other than a dict (a list, a
    string, a number, a boolean, null): the extraction raises, the loop
    ends after that pass as an error stop, and nothing was executed. *)
Theorem non_object_answer_stops a w text w2 action_data (max_steps : Z) :
  0 < max_steps ->
  answers a w text w2 ->
  json_loads text = inr action_data ->
  (forall members, action_data <> JObject members) ->
  run_loop max_steps (a, w)
  = (inr (StoppedOnError (pop_error action_data), 1%nat), (a, w2)).
Proof.
  intros Hpos Hans Hj Hno.
  assert (Hpass : loop_pass (a, w) = (inl (pop_error action_data), (a, w2))).
  { rewrite (loop_pass_answered _ _ _ _ Hans), Hj. cbn [next_action_of].
    destruct action_data; try reflexivity.
    exfalso. eapply Hno. reflexivity. }
  rewrite (run_loop_pass_stops _ _ _ _ Hpos Hpass).
  destruct action_data; reflexivity.
Qed.

(** X4.  An answer that [json.loads] does not decode ends the loop in that
    pass.  For a [JSONDecodeError] the loop ends as an error stop carrying
    the format error; any other exception of [json.loads] (a text nested
    too deep, an integer of too many digits) is what the loop stops on, or
    lets through, itself.  Either way the agent is as it was and the world
    as the provider left it. *)
Theorem undecodable_answer_stops a w text w2 e (max_steps : Z) :
  0 < max_steps ->
  answers a w text w2 ->
  json_loads text = inl e ->
  run_loop max_steps (a, w)
  = (if is_JSONDecodeError e
     then inr (StoppedOnError
                 (ValueError "LLM response was not in the expected JSON format"),
               1%nat)
     else stop_on e 1,
     (a, w2)).
Proof.
  intros Hpos Hans Hj.
  assert (Hpass : loop_pass (a, w)
                  = (inl (if is_JSONDecodeError e then format_error else e),
                     (a, w2))).
  { rewrite (loop_pass_answered _ _ _ _ Hans), Hj. simpl.
    destruct (is_JSONDecodeError e); reflexivity. }
  rewrite (run_loop_pass_stops _ _ _ _ Hpos Hpass).
  destruct (is_JSONDecodeError e); reflexivity.
Qed.

(** X5.  An answer that names an action the registry does not have ends the
    loop after that pass as a failure stop whose message carries the name;
    the agent is as it was. *)
Theorem unregistered_answer_stops a w text w2 members (name : string)
    (max_steps : Z) :
  0 < max_steps ->
  answers a w text w2 ->
  json_loads text = inr (JObject members) ->
  PyDict.get members "action" = Some (JString name) ->
  PyDict.has_key (parameters_of members) "action_name" = false ->
  PyDict.has_key (parameters_of members) "self" = false ->
  PyDict.get (_actions (action_registry a)) name = None ->
  run_loop max_steps (a, w)
  = (inr (StoppedOnFailure ("Action '" +:+ name +:+ "' not found"), 1%nat),
     (a, w2)).
Proof.
  intros Hpos Hans Hj Hact Hn Hs Hnone.
  pose proof (loop_pass_dispatch _ _ _ _ _ _ Hans Hj Hact Hn Hs) as Hpass.
  rewrite execute_action_cases in Hpass. simpl in Hpass.
  rewrite Hnone in Hpass.
  apply (run_loop_pass_fails _ _ _ _ Hpos Hpass). reflexivity.
Qed.

(** X6.  A handler that raises an exception [e] deriving from [Exception]
    does not make the pass an error: [execute_action] turns it into a
    failure result, and the loop ends as a failure stop with the message
    [Action failed: str(e)]; the history is as it was.  When [str(e)]
    itself raises, that exception leaves [execute_action] instead, and the
    loop stops on it as on any exception of the pass. *)
Theorem failing_handler_stops a w text w2 members (name : string) action
    e w3 (max_steps : Z) :
  0 < max_steps ->
  answers a w text w2 ->
  json_loads text = inr (JObject members) ->
  PyDict.get members "action" = Some (JString name) ->
  PyDict.has_key (parameters_of members) "action_name" = false ->
  PyDict.has_key (parameters_of members) "self" = false ->
  PyDict.get (_actions (action_registry a)) name = Some action ->
  func action (parameters_of members) w2 = (inl e, w3) ->
  is_Exception e = true ->
  run_loop max_steps (a, w)
  = (match exn_str e with
     | inr text => inr (StoppedOnFailure ("Action failed: " +:+ text), 1%nat)
     | inl raised => stop_on raised 1
     end,
     (a, w3)).
Proof.
  intros Hpos Hans Hj Hact Hn Hs Hsome Hf He.
  pose proof (loop_pass_dispatch _ _ _ _ _ _ Hans Hj Hact Hn Hs) as Hpass.
  rewrite execute_action_cases in Hpass. simpl in Hpass.
  rewrite Hsome, Hf, He in Hpass. unfold with_str in Hpass.
  destruct (exn_str e) as [raised|msg].
  - apply (run_loop_pass_stops _ _ _ _ Hpos Hpass).
  - apply (run_loop_pass_fails _ _ _ _ Hpos Hpass). reflexivity.
Qed.


(** X8.  A single pass that succeeds: with [max_steps = 1] the loop completes,
    and the history has one new entry, which holds the answer's action
    under [name], its remaining members under [parameters], its reasoning
    under [reasoning] and what the handler returned under [result] (the
    oldest entry leaves when the history is over capacity). *)
Theorem single_pass_completes a w text w2 members (name : string) action v w3 :
  answers a w text w2 ->
  json_loads text = inr (JObject members) ->
  PyDict.get members "action" = Some (JString name) ->
  PyDict.has_key (parameters_of members) "action_name" = false ->
  PyDict.has_key (parameters_of members) "self" = false ->
  PyDict.get (_actions (action_registry a)) name = Some action ->
  func action (parameters_of members) w2 = (inr v, w3) ->
  exists entry,
    records entry
      (mkExecution (JString name) (parameters_of members)
         (reasoning_of members) v)
    /\ run_loop 1 (a, w)
       = (inr (Completed, 1%nat),
          (set_history a
             (let h := action_history a ++ [entry] in
              if Z.of_nat (length h) >? max_history a then tail h else h),
           w3)).
Proof.
  intros Hans Hj Hact Hn Hs Hsome Hf.
  pose proof (loop_pass_dispatch _ _ _ _ _ _ Hans Hj Hact Hn Hs) as Hpass.
  rewrite execute_action_cases in Hpass. simpl in Hpass.
  rewrite Hsome, Hf in Hpass.
  exists (history_entry (JString name) (parameters_of members)
            (reasoning_of members) v).
  split; [repeat split|].
  unfold run_loop. change (Z.to_nat 1) with 1%nat.
  rewrite run_steps_succ, Hpass. reflexivity.
Qed.

End LoopPasses.

(** ** What the loop keeps *)

Section LoopKeeps.
Context {World Res : Type}.
Context {env : Environment World} {rt : Runtime World Res}
  {llm : LLMProvider World}.
Implicit Types (a : Agent World Res) (w : World).

(** Whatever [execute_action] keeps, the loop keeps: nothing else in it
    writes to the agent. *)
Lemma keeps_loop_pass_of (P : Agent World Res -> Prop) :
  (forall n r k, keeps P (execute_action (World := World) (Res := Res) n r k)) ->
  keeps P loop_pass.
Proof.
  intros Hex. unfold loop_pass.
  apply keeps_bind; [apply reads_only_keeps; auto with agent_keeps | intros ?].
  apply keeps_bind;
    [apply reads_only_keeps, reads_only_get_next_action | intros ?].
  apply keeps_bind; [apply reads_only_keeps; auto with agent_keeps | intros ?].
  unfold call_execute_action.
  match goal with |- context [if ?c then _ else _] => destruct c end.
  - apply reads_only_keeps. auto with agent_keeps.
  - apply Hex.
Qed.

Lemma keeps_run_steps_of (P : Agent World Res -> Prop) :
  (forall n r k, keeps P (execute_action (World := World) (Res := Res) n r k)) ->
  forall remaining step, keeps P (run_steps remaining step).
Proof.
  intros Hex. induction remaining as [|remaining IH]; intros step.
  - apply reads_only_keeps. simpl. auto with agent_keeps.
  - simpl. apply keeps_bind.
    + unfold loop_body. apply keeps_try_except.
      * apply keeps_bind; [apply keeps_loop_pass_of, Hex | intros result].
        apply reads_only_keeps.
        destruct (negb (success result));
          (apply reads_only_bind; [|intros ?]); unfold print, sleep;
          auto with agent_keeps.
      * intros e. apply reads_only_keeps.
        repeat (apply reads_only_bind; [|intros ?]); unfold print;
          auto with agent_keeps.
    + intros st. destruct st; [apply IH | ..]; apply reads_only_keeps;
        auto with agent_keeps.
Qed.

(** A property that does not look at the history survives [execute_action]. *)
Lemma keeps_execute_action_of (P : Agent World Res -> Prop) n r k :
  (forall a h, P a -> P (set_history a h)) ->
  keeps P (execute_action (World := World) (Res := Res) n r k).
Proof.
  intros Hset [a w] HP. simpl in HP. rewrite execute_action_cases.
  destruct (get_action (action_registry a) n) as [e|[action|]];
    [exact HP | | exact HP].
  destruct (func action k w) as [[e|v] w'].
  - destruct (is_Exception e); exact HP.
  - simpl. apply Hset, HP.
Qed.

Lemma same_configuration_refl a : same_configuration a a.
Proof. repeat split. Qed.

(** X9.  Executing actions and running the loop write to the history and to
    nothing else of the agent: templates, character, guidelines, registry
    and [max_history] are as before, whatever happened; building prompts
    and asking for the next action leave the whole agent as it was. *)
Theorem only_the_history_changes a w :
  (forall action_name reasoning kwargs,
      same_configuration a
        (fst (snd (execute_action action_name reasoning kwargs (a, w)))))
  /\ (forall max_steps,
        same_configuration a (fst (snd (run_loop max_steps (a, w)))))
  /\ fst (snd (build_system_prompt (a, w))) = a
  /\ (forall state, fst (snd (build_user_prompt state (a, w))) = a)
  /\ (forall state, fst (snd (get_next_action state (a, w))) = a).
Proof.
  assert (Hset : forall a1 h, same_configuration a a1 ->
                              same_configuration a (set_history a1 h)).
  { intros a1 h H. exact H. }
  repeat split; intros;
    try apply (keeps_execute_action_of (same_configuration a) _ _ _ Hset
                 (a, w) (same_configuration_refl a)).
  all: try apply (keeps_run_steps_of (same_configuration a)
                    (fun n r k => keeps_execute_action_of _ n r k Hset)
                    _ _ (a, w) (same_configuration_refl a)).
  - apply reads_only_build_system_prompt.
  - apply reads_only_build_user_prompt.
  - apply reads_only_get_next_action.
Qed.

End LoopKeeps.

(** ** Invariants of the history *)

Section HistoryInvariants.
Context {World Res : Type}.
Context {env : Environment World} {rt : Runtime World Res}
  {llm : LLMProvider World}.
Implicit Types (a : Agent World Res) (w : World).

Lemma tail_drop {A} (l : list A) : tail l = drop 1 l.
Proof. destruct l; [reflexivity | simpl; rewrite drop_0; reflexivity]. Qed.

(** A property of every entry survives the append-and-trim of
    [execute_action] when the new entry has it. *)
Lemma Forall_history_after (P : HistoryEntry Res -> Prop) a n r k (v : Res) :
  Forall P (action_history a) ->
  P (history_entry n k r v) ->
  Forall P (history_after a n r k v).
Proof.
  intros Hall Hnew. unfold history_after.
  assert (H : Forall P (action_history a ++ [history_entry n k r v])).
  { apply Forall_app. split; [exact Hall | repeat constructor; exact Hnew]. }
  destruct (_ >? _); [|exact H]. rewrite tail_drop. apply Forall_drop, H.
Qed.

Lemma keeps_names_registered_execute n r k :
  keeps names_registered (execute_action (World := World) (Res := Res) n r k).
Proof.
  intros [a w] HP. simpl in HP. rewrite execute_action_cases.
  destruct (get_action (action_registry a) n) as [e|[action|]] eqn:Hget;
    [exact HP | | exact HP].
  destruct (func action k w) as [[e|v] w'].
  - destruct (is_Exception e); exact HP.
  - unfold names_registered in *. simpl.
    apply Forall_history_after; [exact HP|].
    destruct n; simpl in Hget; try discriminate.
    injection Hget as Hget. exists s. split; [reflexivity|].
    rewrite Hget. eauto.
Qed.

(** X10.  Every entry of the history names an action of the registry, and this
    stays so: [execute_action] records only what it found in the registry,
    registering never removes a name, and the loop does nothing else. *)
Theorem history_names_stay_registered a w :
  names_registered a ->
  (forall name func description required_params example,
      names_registered
        (fst (snd (register_action name func description required_params
                     example (a, w)))))
  /\ (forall action_name reasoning kwargs,
        names_registered
          (fst (snd (execute_action action_name reasoning kwargs (a, w)))))
  /\ (forall max_steps,
        names_registered (fst (snd (run_loop max_steps (a, w))))).
Proof.
  intros HP. repeat split; intros.
  - unfold names_registered in *. simpl.
    eapply Forall_impl; [exact HP|].
    intros entry (n & Hn & Hreg). exists n. split; [exact Hn|].
    destruct (decide (name = n)) as [->|Hne].
    + rewrite get_set_eq. eauto.
    + rewrite get_set_ne by exact Hne. exact Hreg.
  - apply (keeps_names_registered_execute _ _ _ (a, w) HP).
  - apply (keeps_run_steps_of names_registered
             keeps_names_registered_execute _ _ (a, w) HP).
Qed.

(** *** The history never gets shorter *)

Lemma history_after_length a n r k (v : Res) :
  length (history_after a n r k v) =
  if Z.of_nat (length (action_history a)) + 1 >? max_history a
  then length (action_history a)
  else S (length (action_history a)).
Proof.
  unfold history_after. rewrite length_app. simpl length.
  replace (Z.of_nat (length (action_history a) + 1))
    with (Z.of_nat (length (action_history a)) + 1) by lia.
  destruct (_ >? _).
  - destruct (action_history a); simpl; [reflexivity|].
    rewrite length_app. simpl. lia.
  - rewrite length_app. simpl. lia.
Qed.

Lemma keeps_length_at_least (L : nat) n r k :
  keeps (fun a => (L <= length (action_history a))%nat)
    (execute_action (World := World) (Res := Res) n r k).
Proof.
  intros [a w] HP. simpl in HP. rewrite execute_action_cases.
  destruct (get_action (action_registry a) n) as [e|[action|]];
    [exact HP | | exact HP].
  destruct (func action k w) as [[e|v] w'].
  - destruct (is_Exception e); exact HP.
  - simpl. rewrite history_after_length. destruct (_ >? _); lia.
Qed.

(** X11.  No operation shortens the history: [execute_action] drops at most the
    one entry it has just made room for.  So a history that is longer than
    [max_history] (after [max_history] was lowered, say) stays longer: a
    success leaves it at the length it had. *)
Theorem history_never_shrinks a w :
  (forall action_name reasoning kwargs,
      (length (action_history a)
       <= length (action_history
                    (fst (snd (execute_action action_name reasoning kwargs
                                 (a, w))))))%nat)
  /\ (forall max_steps,
        (length (action_history a)
         <= length (action_history (fst (snd (run_loop max_steps (a, w))))))%nat)
  /\ (forall action_name reasoning kwargs v,
        max_history a <= Z.of_nat (length (action_history a)) ->
        length (history_after a action_name reasoning kwargs v)
        = length (action_history a)).
Proof.
  repeat split; intros.
  - apply (keeps_length_at_least _ _ _ _ (a, w)). simpl. lia.
  - apply (keeps_run_steps_of _ (keeps_length_at_least _) _ _ (a, w)).
    simpl. lia.
  - rewrite history_after_length.
    destruct (Z.gtb_spec (Z.of_nat (length (action_history a)) + 1)
                (max_history a)); [reflexivity | lia].
Qed.

(** *** An agent that remembers nothing *)

Lemma keeps_forgetful n r k :
  keeps forgetful (execute_action (World := World) (Res := Res) n r k).
Proof.
  intros [a w] [Hh Hm]. simpl in Hh, Hm. rewrite execute_action_cases.
  destruct (get_action (action_registry a) n) as [e|[action|]];
    [split; assumption | | split; assumption].
  destruct (func action k w) as [[e|v] w'].
  - destruct (is_Exception e); split; assumption.
  - split; [|exact Hm]. simpl. unfold history_after. rewrite Hh. simpl.
    destruct (Z.gtb_spec (Z.of_nat 1) (max_history a)); [reflexivity | lia].
Qed.

(** X12.  With [max_history] zero (or negative) the history stays empty: every
    entry is dropped as soon as it is appended, by [execute_action] and so
    by the loop. *)
Theorem nothing_is_remembered a w :
  max_history a <= 0 ->
  action_history a = [] ->
  (forall action_name reasoning kwargs,
      action_history
        (fst (snd (execute_action action_name reasoning kwargs (a, w)))) = [])
  /\ (forall max_steps,
        action_history (fst (snd (run_loop max_steps (a, w)))) = []).
Proof.
  intros Hm Hh. assert (HP : forgetful a) by (split; assumption).
  split; intros.
  - apply (keeps_forgetful _ _ _ (a, w) HP).
  - apply (keeps_run_steps_of forgetful keeps_forgetful _ _ (a, w) HP).
Qed.

End HistoryInvariants.

(** ** After the first success *)

Section OneExecution.
Context {World Res : Type}.
Context {env : Environment World} {rt : Runtime World Res}
  {llm : LLMProvider World}.
Implicit Types (a : Agent World Res) (w : World).

Lemma one_execution_execute n r k :
  one_execution_at_most (execute_action (World := World) (Res := Res) n r k).
Proof.
  intros [a w]. rewrite execute_action_cases.
  destruct (get_action (action_registry a) n) as [e|[action|]];
    [reflexivity | | reflexivity].
  destruct (func action k w) as [[e|v] w'].
  - destruct (is_Exception e); [unfold with_str; destruct (exn_str e)|];
      reflexivity.
  - simpl. exists n, r, k, v. split; reflexivity.
Qed.

Lemma one_execution_bind {A} (m : @M World Res A) k :
  reads_only m ->
  (forall x, one_execution_at_most (k x)) ->
  one_execution_at_most (bind m k).
Proof.
  intros Hm Hk s. unfold bind. specialize (Hm s).
  destruct (m s) as [[e|x] s1]; simpl in Hm; [exact Hm|].
  specialize (Hk x s1). rewrite Hm in Hk. exact Hk.
Qed.

Lemma one_execution_loop_pass : one_execution_at_most loop_pass.
Proof.
  unfold loop_pass.
  apply one_execution_bind; [auto with agent_keeps | intros ?].
  apply one_execution_bind; [apply reads_only_get_next_action | intros ?].
  apply one_execution_bind; [auto with agent_keeps | intros ?].
  unfold call_execute_action.
  match goal with |- context [if ?c then _ else _] => destruct c end.
  - intros s. reflexivity.
  - apply one_execution_execute.
Qed.

(** With a history that is not empty, the pass cannot build its user
    prompt: it raises before the provider is asked, the agent as it was. *)
Lemma loop_pass_stuck a w :
  0 <= max_history a ->
  action_history a <> [] ->
  Forall made_by_execute_action (action_history a) ->
  exists e w', loop_pass (a, w) = (inl e, (a, w')).
Proof.
  intros Hm Hne Hall. unfold loop_pass, bind at 1. unfold lift_world at 1.
  simpl. destruct (get_state w) as [[e|state] w0]; [eauto|].
  unfold bind at 1. unfold get_next_action, bind at 1.
  pose proof (reads_only_build_system_prompt (a, w0)) as Hro.
  destruct (build_system_prompt (a, w0)) as [[e|sp] [a1 w1]]; simpl in Hro;
    subst a1; [eauto|].
  unfold bind at 1. unfold build_user_prompt, bind at 1.
  rewrite (format_action_history_nonempty a w1 Hne Hall Hm). eauto.
Qed.

Lemma stop_on_not_completed e n steps : stop_on e n <> inr (Completed, steps).
Proof.
  intros H. pose proof (stop_on_cases e n) as Hc. rewrite H in Hc.
  destruct Hc as [Hc _]. discriminate.
Qed.

Lemma history_after_nonempty a n r k (v : Res) :
  0 < max_history a -> history_after a n r k v <> [].
Proof.
  intros Hm H. apply (f_equal length) in H.
  rewrite history_after_length in H. simpl in H.
  destruct (Z.gtb_spec (Z.of_nat (length (action_history a)) + 1)
              (max_history a)); lia.
Qed.

(** X13.  A run of the loop records one execution at most.  On an agent with a
    positive [max_history] whose history is empty or holds entries written
    by [execute_action], the pass after a success cannot render the
    history and stops the loop; so the loop never completes more than one
    pass, and the agent it leaves is the one it was given or that one
    after a single execution. *)
Theorem one_execution_per_run a w (max_steps : Z) :
  0 < max_history a ->
  Forall made_by_execute_action (action_history a) ->
  (forall steps s',
      run_loop max_steps (a, w) = (inr (Completed, steps), s') ->
      (steps <= 1)%nat /\ max_steps <= 1)
  /\ (fst (snd (run_loop max_steps (a, w))) = a
      \/ exists action_name reasoning kwargs v,
           fst (snd (run_loop max_steps (a, w)))
           = set_history a (history_after a action_name reasoning kwargs v)).
Proof.
  intros Hm Hall. unfold run_loop.
  destruct (Z.to_nat max_steps) as [|n] eqn:Hn.
  { rewrite run_steps_zero. split; [|left; reflexivity].
    intros steps s' [= <- _]. split; lia. }
  rewrite run_steps_succ.
  pose proof (one_execution_loop_pass (a, w)) as Hone.
  destruct (loop_pass (a, w)) as [[e|res] [a1 w1]]; simpl in Hone.
  { subst a1. split; [|left; reflexivity].
    intros steps s' [= H _]. exfalso. exact (stop_on_not_completed _ _ _ H). }
  destruct (success res); [|subst a1; split; [discriminate | left; reflexivity]].
  destruct Hone as (n0 & r0 & k0 & v0 & -> & ->).
  destruct n as [|n].
  { rewrite run_steps_zero. split; [|right; eauto].
    intros steps s' [= <- _]. split; lia. }
  set (a1 := set_history a (history_after a n0 r0 k0 v0)).
  destruct (loop_pass_stuck a1 w1) as (e & w2 & Hstuck).
  - simpl. lia.
  - simpl. apply history_after_nonempty, Hm.
  - simpl. apply Forall_history_after; [exact Hall|]. do 4 eexists. reflexivity.
  - rewrite run_steps_succ, Hstuck.
    split; [|right; exists n0, r0, k0, v0; reflexivity].
    intros steps s' [= H _]. exfalso. exact (stop_on_not_completed _ _ _ H).
Qed.

End OneExecution.

(** ** Names and registrations *)

Section Dispatch.
Context {World Res : Type}.
Implicit Types (a : Agent World Res) (w : World).

(** X14.  An action name that is not a string finds nothing.  A list or a dict
    cannot even be looked up: [execute_action] raises [TypeError], outside
    its [try], instead of returning a failure; null, a boolean or a number
    is looked up and not found.  Either way the agent and the world are as
    they were. *)
Theorem non_string_action_name a w action_name reasoning kwargs :
  (forall s, action_name <> JString s) ->
  execute_action action_name reasoning kwargs (a, w) =
  if hashable action_name
  then (inr (mkActionResult false
               ("Action '" +:+ py_str action_name +:+ "' not found") None),
        (a, w))
  else (inl (TypeError
               (match action_name with
                | JList _ => "unhashable type: 'list'"
                | _ => "unhashable type: 'dict'"
                end)),
        (a, w)).
Proof.
  intros Hns. rewrite execute_action_cases.
  destruct action_name; try reflexivity.
  exfalso. eapply Hns. reflexivity.
Qed.

(** X15.  Registering under a name decides what [execute_action] runs for that
    name from then on, whatever was registered under it before, and
    changes the lookup of no other name.  (A failure of the handler is
    reported with [str(e)]; when [str(e)] raises, that exception leaves
    [execute_action].) *)
Theorem register_action_then_execute a w (name : string) (f : Handler World Res)
    description required_params example reasoning kwargs :
  let a1 := fst (snd (register_action name f description required_params
                        example (a, w))) in
  execute_action (JString name) reasoning kwargs (a1, w) =
  match f kwargs w with
  | (inr v, w') =>
      (inr (mkActionResult true "Action executed successfully" (Some v)),
       (set_history a1 (history_after a1 (JString name) reasoning kwargs v), w'))
  | (inl e, w') =>
      if is_Exception e
      then (match exn_str e with
            | inr text =>
                inr (mkActionResult false ("Action failed: " +:+ text) None)
            | inl raised => inl raised
            end,
            (a1, w'))
      else (inl e, (a1, w'))
  end
  /\ (forall other : string,
        other <> name ->
        get_action (action_registry a1) (JString other)
        = get_action (action_registry a) (JString other))
  /\ action_history a1 = action_history a.
Proof.
  cbv zeta. repeat split.
  - rewrite execute_action_cases. simpl. rewrite get_set_eq. simpl.
    destruct (f kwargs w) as [[e|v] w']; [|reflexivity].
    unfold with_str. destruct (exn_str e); reflexivity.
  - intros other Hne. simpl. rewrite get_set_ne by congruence. reflexivity.
Qed.

End Dispatch.

(** ** The default templates in the loop *)

Section DefaultLoop.
Context {World Res : Type}.
Context {env : Environment World} {rt : Runtime World Res}.
Implicit Types (a : Agent World Res) (w : World).

Lemma loop_pass_default_template a w :
  system_template a = DEFAULT_SYSTEM_TEMPLATE ->
  exists e w', forall llm : LLMProvider World,
    loop_pass (llm := llm) (a, w) = (inl e, (a, w')).
Proof.
  intros Ht. destruct (get_state w) as [[e|state] w0] eqn:Hst.
  - exists e, w0. intros llm.
    unfold loop_pass, bind, lift_world. simpl. rewrite Hst. reflexivity.
  - destruct (build_system_prompt_default a w0 Ht) as (e & w1 & Hs & _).
    exists e, w1. intros llm.
    unfold loop_pass, bind at 1. unfold lift_world at 1. simpl. rewrite Hst.
    unfold bind at 1. unfold get_next_action, bind at 1. rewrite Hs.
    reflexivity.
Qed.

(** X16.  An agent with the default system template never asks its provider and
    never executes an action: whatever the provider would answer, every
    run of the loop ends in its first pass, on the exception of the
    environment or of the prompt construction (or, when that one cannot
    be printed, on what its [str] raises), the agent as it was. *)
Theorem default_template_loop_stops a w (max_steps : Z) :
  system_template a = DEFAULT_SYSTEM_TEMPLATE ->
  0 < max_steps ->
  exists e w', forall llm : LLMProvider World,
    run_loop (llm := llm) max_steps (a, w)
    = if is_Exception e
      then (match exn_str e with
            | inr _ => inr (StoppedOnError e, 1%nat)
            | inl raised => inl raised
            end,
            (a, w'))
      else (inl e, (a, w')).
Proof.
  intros Ht Hpos. destruct (loop_pass_default_template a w Ht) as (e & w' & H).
  exists e, w'. intros llm. unfold run_loop.
  destruct (Z.to_nat max_steps) as [|n] eqn:Hn; [lia|].
  rewrite run_steps_succ, H. unfold stop_on, with_str.
  destruct (is_Exception e); [destruct (exn_str e)|]; reflexivity.
Qed.

End DefaultLoop.

(** ** The provider classes of [llm.py] under the agent *)

Section ProviderCall.
Context {World Res : Type}.
Context {env : Environment World} {rt : Runtime World Res}.
Implicit Types (a : Agent World Res) (w : World).

(** The call [get_next_action] makes does not fit [generate_response] of
    [ClaudeLLM] and [OpenAILLM]: it gives no [model].  The call raises
    before the method body runs, so the vendor's client is never used. *)
Lemma provider_call_raises (client : VendorClient World) system_prompt
    user_prompt (w : World) :
  provider_generate_response client system_prompt user_prompt w
  = (inl missing_model, w).
Proof. reflexivity. Qed.

(** X17.  With [ClaudeLLM] or [OpenAILLM] as its provider, whatever the vendor's
    client does: once both prompts are built, [get_next_action] raises
    [TypeError] for the missing [model], the client untouched; and a loop
    whose environment gives a state ends in its first pass as an error
    stop on that exception, the agent as it was. *)
Theorem shipped_providers_are_never_reached a w (client : VendorClient World)
    state w0 system_prompt w1 user_prompt (max_steps : Z) :
  0 < max_steps ->
  get_state w = (inr state, w0) ->
  build_system_prompt (a, w0) = (inr system_prompt, (a, w1)) ->
  build_user_prompt state (a, w1) = (inr user_prompt, (a, w1)) ->
  get_next_action (llm := ClaudeLLM client) state (a, w0)
  = (inl missing_model, (a, w1))
  /\ get_next_action (llm := OpenAILLM client) state (a, w0)
     = (inl missing_model, (a, w1))
  /\ run_loop (llm := ClaudeLLM client) max_steps (a, w)
     = (inr (StoppedOnError missing_model, 1%nat), (a, w1))
  /\ run_loop (llm := OpenAILLM client) max_steps (a, w)
     = (inr (StoppedOnError missing_model, 1%nat), (a, w1)).
Proof.
  intros Hpos Hst Hs Hu.
  assert (Hnext : forall llm : LLMProvider World,
             generate_response (LLMProvider := llm)
             = provider_generate_response client ->
             get_next_action (llm := llm) state (a, w0)
             = (inl missing_model, (a, w1))).
  { intros llm Hllm. unfold get_next_action, bind. rewrite Hs, Hu.
    unfold lift_world. simpl. rewrite Hllm, provider_call_raises. reflexivity. }
  assert (Hloop : forall llm : LLMProvider World,
             generate_response (LLMProvider := llm)
             = provider_generate_response client ->
             run_loop (llm := llm) max_steps (a, w)
             = (inr (StoppedOnError missing_model, 1%nat), (a, w1))).
  { intros llm Hllm.
    eapply run_loop_pass_raises; [exact Hpos | | reflexivity | reflexivity].
    unfold loop_pass, bind at 1. unfold lift_world at 1. simpl. rewrite Hst.
    unfold bind at 1. rewrite (Hnext llm Hllm). reflexivity. }
  repeat split; (apply Hnext || apply Hloop); reflexivity.
Qed.

End ProviderCall.

(** ** Rendering a history that has timestamps *)

Section Rendering.
Context {World Res : Type}.
Context {env : Environment World} {rt : Runtime World Res}.
Implicit Types (a : Agent World Res) (w : World) (items : list (Stamped Res)).

Lemma res_mapM_map {A B C} (f : B -> result C) (h : A -> B) (g : A -> C)
    (l : list A) :
  (forall x, f (h x) = inr (g x)) ->
  res_mapM f (List.map h l) = inr (List.map g l).
Proof.
  intros H. induction l as [|x l IH]; simpl; [reflexivity|].
  rewrite H, IH. reflexivity.
Qed.

Lemma py_slice_from_map {A B} (f : A -> B) (start : Z) (l : list A) :
  py_slice_from start (List.map f l) = List.map f (py_slice_from start l).
Proof.
  unfold py_slice_from. rewrite List.length_map. apply List.skipn_map.
Qed.

(** [l[-m:]] is the last [m] items for a positive [m], and otherwise [l]
    without its first [-m] items: all of [l] for [m = 0]. *)
Lemma py_slice_from_neg {A} (m : Z) (l : list A) :
  py_slice_from (- m) l =
  if 0 <? m then window (Z.to_nat m) l else drop (Z.to_nat (- m)) l.
Proof.
  unfold py_slice_from, window.
  destruct (Z.ltb_spec 0 m) as [Hpos|Hle].
  - destruct (Z.ltb_spec (- m) 0); [|lia]. f_equal. lia.
  - destruct (Z.ltb_spec (- m) 0); [lia|].
    destruct (Z.le_gt_cases (- m) (Z.of_nat (length l))).
    + rewrite Z.min_l by lia. reflexivity.
    + rewrite Z.min_r by lia. rewrite !drop_ge by lia. reflexivity.
Qed.

Lemma format_stamped a w items :
  action_history a = List.map stamped_entry items ->
  items <> [] ->
  _format_action_history (a, w)
  = (inr (py_join nl
            (List.map history_line (py_slice_from (- max_history a) items))),
     (a, w)).
Proof.
  intros Hh Hne. unfold _format_action_history, bind, get_self, lift_res.
  simpl. rewrite Hh.
  destruct items as [|it items]; [congruence|].
  change (stamped_entry it :: List.map stamped_entry items)
    with (List.map stamped_entry (it :: items)).
  cbv match beta.
  rewrite py_slice_from_map.
  rewrite (res_mapM_map format_entry stamped_entry history_line)
    by (intros x; reflexivity).
  reflexivity.
Qed.

(** X18.  When every entry of the history has a [timestamp] next to what
    [execute_action] writes, and [max_history] is positive, the rendering
    is what the source aims at: the last min(len, max_history) entries,
    oldest first, one item per entry with name, timestamp, reasoning and
    result, the items joined by newlines. *)
Theorem stamped_history_renders a w items :
  action_history a = List.map stamped_entry items ->
  items <> [] ->
  0 < max_history a ->
  _format_action_history (a, w)
  = (inr (py_join nl
            (List.map history_line (window (Z.to_nat (max_history a)) items))),
     (a, w))
  /\ length (window (Z.to_nat (max_history a)) items)
     = Nat.min (length items) (Z.to_nat (max_history a)).
Proof.
  intros Hh Hne Hm. split; [|apply window_length].
  rewrite (format_stamped a w items Hh Hne), py_slice_from_neg.
  destruct (Z.ltb_spec 0 (max_history a)); [reflexivity | lia].
Qed.

(** X19.  The slice [[-max_history:]] with [max_history = 0] is the whole list,
    not the empty one: the rendering then shows every entry of the
    history; with a negative [max_history] it leaves out the oldest
    [-max_history] entries. *)
Theorem stamped_history_unbounded a w items :
  action_history a = List.map stamped_entry items ->
  items <> [] ->
  max_history a <= 0 ->
  _format_action_history (a, w)
  = (inr (py_join nl
            (List.map history_line (drop (Z.to_nat (- max_history a)) items))),
     (a, w))
  /\ (max_history a = 0 ->
      _format_action_history (a, w)
      = (inr (py_join nl (List.map history_line items)), (a, w))).
Proof.
  intros Hh Hne Hm.
  assert (H : _format_action_history (a, w)
              = (inr (py_join nl
                        (List.map history_line
                           (drop (Z.to_nat (- max_history a)) items))),
                 (a, w))).
  { rewrite (format_stamped a w items Hh Hne), py_slice_from_neg.
    destruct (Z.ltb_spec 0 (max_history a)); [lia | reflexivity]. }
  split; [exact H|]. intros H0. rewrite H, H0. reflexivity.
Qed.

End Rendering.

(** ** Templates that build *)

Section Templates.
Variable render : fmt_render.
Variable kw : PyDict.t string.

Lemma append_empty_r (s : string) : s +:+ EmptyString = s.
Proof.
  induction s as [|c s IH]; [reflexivity|].
  change (String c (s +:+ EmptyString) = String c s). f_equal. exact IH.
Qed.

Lemma append_assoc (s1 s2 s3 : string) : (s1 +:+ s2) +:+ s3 = s1 +:+ (s2 +:+ s3).
Proof.
  induction s1 as [|c s1 IH]; [reflexivity|].
  change (String c ((s1 +:+ s2) +:+ s3) = String c (s1 +:+ (s2 +:+ s3))).
  f_equal. exact IH.
Qed.

Lemma res_prepend_cons (c : ascii) (s : string) (r : result string) :
  res_prepend (inr (str1 c)) (res_prepend (inr s) r)
  = res_prepend (inr (String c s)) r.
Proof. destruct r; reflexivity. Qed.

(** Text without braces is copied. *)
Lemma fmt_go_text (s rest : string) :
  brace_free s = true ->
  fmt_go render kw MText (s +:+ rest)
  = res_prepend (inr s) (fmt_go render kw MText rest).
Proof.
  induction s as [|c s IH]; intros Hbf.
  - change (EmptyString +:+ rest) with rest.
    destruct (fmt_go render kw MText rest); reflexivity.
  - unfold brace_free in Hbf. simpl in Hbf.
    apply andb_prop in Hbf as [Hc Hs].
    apply negb_true_iff, orb_false_iff in Hc as [Hl Hr].
    change (String c s +:+ rest) with (String c (s +:+ rest)).
    cbn [fmt_go]. rewrite Hl, Hr.
    rewrite (IH Hs). apply res_prepend_cons.
Qed.

(** A name without special characters is read to its closing brace. *)
Lemma fmt_go_name (name rest : string) : forall acc,
  str_forall (fun c => negb (field_special c)) name = true ->
  fmt_go render kw (MName acc false) (name +:+ String ch_rbrace rest)
  = res_prepend (fmt_field render kw (acc +:+ name) None EmptyString)
      (fmt_go render kw MText rest).
Proof.
  induction name as [|c name IH]; intros acc Hn.
  - rewrite append_empty_r. reflexivity.
  - simpl in Hn. apply andb_prop in Hn as [Hc Hn].
    apply negb_true_iff in Hc. unfold field_special in Hc.
    repeat (apply orb_false_iff in Hc as [Hc ?]).
    change (String c name +:+ String ch_rbrace rest)
      with (String c (name +:+ String ch_rbrace rest)).
    cbn [fmt_go].
    repeat match goal with H : Ascii.eqb c _ = false |- _ => rewrite H; clear H end.
    rewrite (IH _ Hn), append_assoc. reflexivity.
Qed.

Lemma split_first_plain (name : string) :
  str_forall (fun c => negb (field_special c)) name = true ->
  split_first name = (name, EmptyString).
Proof.
  induction name as [|c name IH]; intros Hn; [reflexivity|].
  simpl in Hn. apply andb_prop in Hn as [Hc Hn].
  apply negb_true_iff in Hc. unfold field_special in Hc.
  repeat (apply orb_false_iff in Hc as [Hc ?]).
  simpl. rewrite (IH Hn).
  repeat match goal with H : Ascii.eqb c _ = false |- _ => rewrite H; clear H end.
  reflexivity.
Qed.

Lemma fmt_field_plain (name v : string) :
  plain_name name = true ->
  PyDict.get kw name = Some v ->
  fmt_field render kw name None EmptyString = inr v.
Proof.
  intros Hp Hv. unfold plain_name in Hp. apply andb_prop in Hp as [Hn Hd].
  apply negb_true_iff in Hd.
  unfold fmt_field. rewrite (split_first_plain _ Hn), Hd, Hv. reflexivity.
Qed.

(** A placeholder with a plain name that [kw] has is replaced by its
    value. *)
Lemma fmt_go_placeholder (name v rest : string) :
  plain_name name = true ->
  PyDict.get kw name = Some v ->
  fmt_go render kw MText
    (String ch_lbrace (name +:+ String ch_rbrace rest))
  = res_prepend (inr v) (fmt_go render kw MText rest).
Proof.
  intros Hp Hv.
  assert (Hn : str_forall (fun c => negb (field_special c)) name = true).
  { unfold plain_name in Hp. apply andb_prop in Hp as [Hn _]. exact Hn. }
  assert (Hgo : fmt_go render kw MText
                  (String ch_lbrace (name +:+ String ch_rbrace rest))
                = fmt_go render kw (MName EmptyString false)
                    (name +:+ String ch_rbrace rest)).
  { destruct name as [|c name]; [reflexivity|].
    simpl in Hn. apply andb_prop in Hn as [Hc _].
    apply negb_true_iff in Hc. unfold field_special in Hc.
    repeat (apply orb_false_iff in Hc as [Hc ?]).
    change (String c name +:+ String ch_rbrace rest)
      with (String c (name +:+ String ch_rbrace rest)).
    cbn [fmt_go]. change (Ascii.eqb ch_lbrace ch_lbrace) with true.
    cbv iota. rewrite Hc. reflexivity. }
  rewrite Hgo, (fmt_go_name name rest EmptyString Hn).
  change (EmptyString +:+ name) with name.
  rewrite (fmt_field_plain name v Hp Hv). reflexivity.
Qed.

(** A template of brace-free text and of placeholders that are plain names
    among the keyword arguments formats without an exception, to the text
    with each placeholder replaced by its value; keyword arguments the
    template does not use are ignored. *)
Lemma str_format_pieces (pieces : list piece) :
  Forall (fits kw) pieces ->
  str_format render (template_of pieces) kw = inr (filled kw pieces).
Proof.
  unfold str_format. induction 1 as [|p pieces Hp _ IH]; [reflexivity|].
  destruct p as [s|name]; cbn [template_of filled fits] in *.
  - rewrite (fmt_go_text _ _ Hp), IH. reflexivity.
  - destruct Hp as [Hp [v Hv]].
    rewrite (fmt_go_placeholder name v _ Hp Hv), IH, Hv. reflexivity.
Qed.

End Templates.

Section TemplatesThatBuild.
Context {World Res : Type}.
Context {env : Environment World} {rt : Runtime World Res}.
Implicit Types (a : Agent World Res) (w : World).

(** X20.  A user template made of brace-free text and of the placeholders
    [state] and [action_history], in any number and order: for an agent
    with an empty history the user prompt builds, and it is the template
    with the dumped state and the sentence for an empty history in their
    places. *)
Theorem user_prompt_builds a w state dumped pieces :
  user_template a = template_of pieces ->
  action_history a = [] ->
  dumps_state state = inr dumped ->
  Forall (fits [ ("state", dumped);
                 ("action_history", "No previous actions taken.") ]) pieces ->
  build_user_prompt state (a, w)
  = (inr (filled [ ("state", dumped);
                   ("action_history", "No previous actions taken.") ] pieces),
     (a, w)).
Proof.
  intros Ht Hh Hd Hfits. unfold build_user_prompt, bind at 1.
  rewrite (format_action_history_empty a w Hh).
  unfold bind, get_self, lift_res. simpl. rewrite Hd, Ht.
  rewrite (str_format_pieces _ _ _ Hfits). reflexivity.
Qed.

End TemplatesThatBuild.

(** ** A loop that completes *)

Section ForgetfulLoop.
Context {World Res : Type}.
Context {env : Environment World} {rt : Runtime World Res}
  {llm : LLMProvider World}.
Implicit Types (a : Agent World Res) (w : World).

Lemma set_history_same a : set_history a (action_history a) = a.
Proof. destruct a. reflexivity. Qed.

(** On an agent that remembers nothing, [execute_action] changes nothing. *)
Lemma keeps_eq_forgetful a n r k :
  forgetful a ->
  keeps (fun a' => a' = a) (execute_action (World := World) (Res := Res) n r k).
Proof.
  intros [Hh Hm] [a' w] HP. simpl in HP. subst a'. rewrite execute_action_cases.
  destruct (get_action (action_registry a) n) as [e|[action|]];
    [reflexivity | | reflexivity].
  destruct (func action k w) as [[e|v] w'].
  - destruct (is_Exception e); reflexivity.
  - simpl. unfold history_after. rewrite Hh. simpl.
    destruct (Z.gtb_spec (Z.of_nat 1) (max_history a)); [|lia].
    simpl. rewrite <- Hh. apply set_history_same.
Qed.

Lemma run_steps_completes a (reachable : World -> Prop) :
  forgetful a ->
  (forall w, reachable w ->
     exists result s', loop_pass (a, w) = (inr result, s')
                       /\ success result = true /\ reachable (snd s')) ->
  forall remaining step w, reachable w ->
    exists w', run_steps remaining step (a, w)
               = (inr (Completed, (step + remaining)%nat), (a, w'))
               /\ reachable w'.
Proof.
  intros Hf Hpass. induction remaining as [|remaining IH]; intros step w Hw.
  - exists w. rewrite run_steps_zero, Nat.add_0_r. split; [reflexivity | exact Hw].
  - destruct (Hpass w Hw) as (result & [a1 w1] & Hp & Hs & Hr).
    pose proof (keeps_loop_pass_of (fun a' => a' = a)
                  (fun n r k => keeps_eq_forgetful a n r k Hf) (a, w) eq_refl)
      as Ha.
    rewrite Hp in Ha. simpl in Ha, Hr. subst a1.
    destruct (IH (S step) w1 Hr) as (w' & Hrun & Hw').
    exists w'. rewrite run_steps_succ, Hp, Hs, Hrun.
    replace (S step + remaining)%nat with (step + S remaining)%nat by lia.
    split; [reflexivity | exact Hw'].
Qed.

(** X22.  The loop does complete [max_steps] passes on an agent that remembers
    nothing ([max_history] zero or negative, the history empty): when every
    pass from a world the loop can reach succeeds, [run_loop] makes exactly
    [max_steps] passes, ends as completed, and leaves the agent as it
    was. *)
Theorem forgetful_loop_completes a w (max_steps : Z) (reachable : World -> Prop) :
  max_history a <= 0 ->
  action_history a = [] ->
  reachable w ->
  (forall w1, reachable w1 ->
     exists result s', loop_pass (a, w1) = (inr result, s')
                       /\ success result = true /\ reachable (snd s')) ->
  exists w', run_loop max_steps (a, w)
             = (inr (Completed, Z.to_nat max_steps), (a, w'))
             /\ reachable w'.
Proof.
  intros Hm Hh Hw Hpass. unfold run_loop.
  apply (run_steps_completes a reachable (conj Hh Hm) Hpass
           (Z.to_nat max_steps) 0%nat w Hw).
Qed.

End ForgetfulLoop.

(** ** The order of the exported descriptions *)

Section RegistryOrder.
Context {World Res : Type}.
Implicit Types (r : ActionRegistry World Res) (n : string)
  (regs : list (string * Action World Res)).

Lemma filter_filter_and {A} (f g : A -> bool) (l : list A) :
  List.filter f (List.filter g l) = List.filter (fun x => g x && f x) l.
Proof.
  induction l as [|x l IH]; [reflexivity|]. simpl.
  destruct (g x); simpl; [destruct (f x)|]; rewrite ?IH; reflexivity.
Qed.

Lemma has_key_set {V} (d : PyDict.t V) k v m :
  PyDict.has_key (PyDict.set d k v) m = String.eqb m k || PyDict.has_key d m.
Proof.
  unfold PyDict.has_key. destruct (String.eqb_spec m k) as [->|Hne].
  - rewrite get_set_eq. reflexivity.
  - rewrite get_set_ne by congruence. reflexivity.
Qed.

Lemma register_all_keys regs : forall r,
  PyDict.keys (_actions (register_all r regs))
  = PyDict.keys (_actions r)
    ++ List.filter (fun m => negb (PyDict.has_key (_actions r) m))
         (first_occurrences (PyDict.keys regs)).
Proof.
  induction regs as [|[n action] regs IH]; intros r.
  - simpl. rewrite app_nil_r. reflexivity.
  - rewrite register_all_cons, IH.
    change (_actions (register r n action))
      with (PyDict.set (_actions r) n action).
    change (PyDict.keys ((n, action) :: regs)) with (n :: PyDict.keys regs).
    cbn [first_occurrences List.filter].
    rewrite keys_set.
    assert (Hf : List.filter
                   (fun m => negb (PyDict.has_key
                                     (PyDict.set (_actions r) n action) m))
                   (first_occurrences (PyDict.keys regs))
                 = List.filter (fun m => negb (PyDict.has_key (_actions r) m))
                     (List.filter (fun m => negb (String.eqb m n))
                        (first_occurrences (PyDict.keys regs)))).
    { rewrite filter_filter_and. apply List.filter_ext. intros m.
      rewrite has_key_set. apply negb_orb. }
    rewrite Hf. destruct (PyDict.has_key (_actions r) n); simpl.
    + reflexivity.
    + rewrite <- app_assoc. reflexivity.
Qed.

Lemma filter_absent (n : string) (l : list string) :
  n ∉ l -> List.filter (fun m => negb (String.eqb m n)) l = l.
Proof.
  induction l as [|x l IH]; intros Hn; [reflexivity|]. simpl.
  apply not_elem_of_cons in Hn as [Hne Hn].
  rewrite eqb_false_ne by congruence. simpl. rewrite IH by exact Hn.
  reflexivity.
Qed.

Lemma first_occurrences_NoDup (l : list string) :
  NoDup l -> first_occurrences l = l.
Proof.
  induction 1 as [|x l Hx _ IH]; [reflexivity|].
  simpl. rewrite IH, filter_absent by exact Hx. reflexivity.
Qed.

(** X23.  The exported descriptions (and so the text of the system prompt)
    list the action names in the order in which each was first registered.
    Registering a name again changes what it maps to and not where it
    stands; a new name goes last. *)
Theorem exported_names_follow_first_registration regs :
  let exported :=
    get_action_descriptions (register_all ActionRegistry_init regs) in
  PyDict.keys exported = first_occurrences (PyDict.keys regs)
  /\ (NoDup (PyDict.keys regs) -> PyDict.keys exported = PyDict.keys regs)
  /\ (forall r n action,
        PyDict.keys (get_action_descriptions (register r n action))
        = if PyDict.has_key (_actions r) n
          then PyDict.keys (get_action_descriptions r)
          else PyDict.keys (get_action_descriptions r) ++ [n]).
Proof.
  cbv zeta.
  assert (H : PyDict.keys
                (get_action_descriptions (register_all ActionRegistry_init regs))
              = first_occurrences (PyDict.keys regs)).
  { unfold get_action_descriptions. rewrite keys_map_items, register_all_keys.
    simpl.
    induction (first_occurrences (PyDict.keys regs)) as [|x l IH];
      [reflexivity | simpl; rewrite IH; reflexivity]. }
  split; [exact H|]. split.
  - intros Hnd. rewrite H. apply first_occurrences_NoDup, Hnd.
  - intros r n action. unfold get_action_descriptions.
    rewrite !keys_map_items. apply keys_set.
Qed.

End RegistryOrder.

(** ** The Twitter environment and its cache *)

Section TwitterCache.
Import TwitterEnv.
Context {World : Type} {host : Host World}.
Implicit Types (self : t) (w : World).

Lemma timedelta_fits self :
  duration_fits self ->
  timedelta_seconds (cache_duration self) = inr (cache_duration self * 1000000).
Proof.
  intros Hfit. unfold timedelta_seconds.
  destruct (Z.leb_spec (Z.abs (cache_duration self / 86400)) 999999999);
    [reflexivity | unfold duration_fits in Hfit; lia].
Qed.



(** X24.  A state that was fetched is the answer for as long as the cache is
    fresh: a second call less than [cache_duration] seconds after the
    first returns the same state and does not fetch (the world has only
    had its clock read).  Once the duration has passed the second call
    fetches again, and a fetch that fails then still gives the old
    state (unless the exception cannot be printed, and then what its
    [str] raises leaves the method), the cache and its timestamp left as
    they were. *)
Theorem fetched_state_is_served_again self w t0 w0 values w1 t1 w2 :
  duration_fits self ->
  datetime_now w = (t0, w0) ->
  cache_fresh self t0 = inr false ->
  fetch w0 = (inr values, w1) ->
  datetime_now w1 = (t1, w2) ->
  let self1 := set_cache self (state_of values) t0 in
  get_state self w = (inr (state_of values), (self1, w1))
  /\ (t1 - t0 < 1000000 * cache_duration self ->
      get_state self1 w1 = (inr (state_of values), (self1, w2)))
  /\ (1000000 * cache_duration self <= t1 - t0 ->
      get_state self1 w1
      = match fetch w2 with
        | (inr values', w3) =>
            (inr (state_of values'),
             (set_cache self1 (state_of values') t1, w3))
        | (inl e, w3) =>
            if is_Exception e
            then (match exn_str e with
                  | inr _ => inr (state_of values)
                  | inl raised => inl raised
                  end,
                  (self1, w3))
            else (inl e, (self1, w3))
        end).
Proof.
  intros Hfit Hnow Hfresh Hfetch Hnow1 self1.
  assert (Hd : cache_fresh self1 t1
               = inr (t1 - t0 <? cache_duration self * 1000000)).
  { unfold cache_fresh, self1. simpl.
    rewrite (timedelta_fits self Hfit). simpl.
    rewrite andb_true_r. reflexivity. }
  split; [|split].
  - unfold get_state. rewrite Hnow, Hfresh, Hfetch. reflexivity.
  - intros Hlt. unfold get_state. rewrite Hnow1, Hd.
    destruct (Z.ltb_spec (t1 - t0) (cache_duration self * 1000000));
      [reflexivity | lia].
  - intros Hge. unfold get_state. rewrite Hnow1, Hd.
    destruct (Z.ltb_spec (t1 - t0) (cache_duration self * 1000000)); [lia|].
    destruct (fetch w2) as [[e|values'] w3]; [|reflexivity].
    destruct (is_Exception e); [|reflexivity].
    destruct (exn_str e); reflexivity.
Qed.



(** X26.  A [cache_duration] of more seconds than a [timedelta] can hold is
    not noticed by the first call, which has no timestamp to compare with
    and fetches; from then on every call raises [OverflowError], before
    the [try], and neither fetches nor answers from the cache. *)
Theorem oversized_duration_raises self w t0 w0 values w1 :
  ~ duration_fits self ->
  _cache_timestamp self = None ->
  datetime_now w = (t0, w0) ->
  fetch w0 = (inr values, w1) ->
  let self1 := set_cache self (state_of values) t0 in
  get_state self w = (inr (state_of values), (self1, w1))
  /\ (forall w',
        get_state self1 w'
        = (inl (Thrown "OverflowError" true "days out of range for timedelta"),
           (self1, snd (datetime_now w')))).
Proof.
  intros Hfit Hstamp Hnow Hfetch self1. split.
  - unfold get_state, cache_fresh. rewrite Hnow, Hstamp, Hfetch. reflexivity.
  - intros w'. unfold get_state, cache_fresh, self1.
    destruct (datetime_now w') as [t1 w2]. simpl.
    unfold timedelta_seconds.
    destruct (Z.leb_spec (Z.abs (cache_duration self / 86400)) 999999999);
      [exfalso; apply Hfit; exact H | reflexivity].
Qed.


End TwitterCache.

(** ** A Twitter environment under the agent *)

Section TwitterUnderAgent.
Context {World Res : Type} {host : TwitterEnv.Host World}.
Context {rt : @Runtime (TwitterEnv.t * World) Res TwitterEnv_environment}
  {llm : LLMProvider (TwitterEnv.t * World)}.
Implicit Types (a : Agent (TwitterEnv.t * World) Res) (self : TwitterEnv.t)
  (w : World).

(** X28.  An agent cannot take its state from a [TwitterEnv]: the loop awaits
    [get_state], which is a plain method there and returns a dict.  The
    method runs (it may fetch and fill its cache), the [await] raises
    [TypeError], and every run of the loop ends in its first pass as an
    error stop on it: no prompt is built, the provider is not asked, no
    action is executed.  (When [get_state] itself raises, the loop stops
    on that exception, or lets it through, in the same pass.) *)
Theorem twitter_state_is_not_awaitable a self w (max_steps : Z) :
  0 < max_steps ->
  run_loop (H := TwitterEnv_environment) max_steps (a, (self, w))
  = (match fst (TwitterEnv.get_state self w) with
     | inr _ => inr (StoppedOnError not_awaitable, 1%nat)
     | inl e => stop_on e 1
     end,
     (a, snd (TwitterEnv.get_state self w))).
Proof.
  intros Hpos.
  assert (Hpass : loop_pass (H := TwitterEnv_environment) (a, (self, w))
                  = (inl (match fst (TwitterEnv.get_state self w) with
                          | inr _ => not_awaitable
                          | inl e => e
                          end),
                     (a, snd (TwitterEnv.get_state self w)))).
  { unfold loop_pass, bind, lift_world. simpl.
    destruct (TwitterEnv.get_state self w) as [[e|state] s']; reflexivity. }
  unfold run_loop. destruct (Z.to_nat max_steps) as [|n] eqn:Hn; [lia|].
  rewrite run_steps_succ, Hpass.
  destruct (fst (TwitterEnv.get_state self w)); reflexivity.
Qed.

End TwitterUnderAgent.

(** * The further properties on concrete inputs *)

Section MoreRuns.
Import Demo.

(** In the concrete setting every pass of these agents gets as far as the
    provider. *)
Lemma demo_answers (text : string) (max_history : Z) :
  answers (rt := Demo2.rt) (llm := answering text) (agent max_history) [] text
    ["generate_response"; "get_state"].
Proof.
  exists (JObject [("followers", JInt 7)]), ["get_state"],
    "World: a quiet room", ["get_state"],
    "{'followers': 7} / No previous actions taken.".
  repeat split.
Qed.

Lemma loop_pass_forwards_witness :
  loop_pass (rt := Demo2.rt) (llm := answering Demo2.post_text) (agent 2, [])
  = execute_action (JString "X") (JString "because") [("content", JString "hi")]
      (agent 2, ["generate_response"; "get_state"])
  /\ PyDict.get (parameters_of Demo2.post_members) "action" = None
  /\ PyDict.get (parameters_of Demo2.post_members) "reasoning" = None
  /\ (forall k, k <> "action" -> k <> "reasoning" ->
        PyDict.get (parameters_of Demo2.post_members) k
        = PyDict.get Demo2.post_members k).
Proof.
  exact (loop_pass_forwards (rt := Demo2.rt) (llm := answering Demo2.post_text)
           (agent 2) [] Demo2.post_text ["generate_response"; "get_state"]
           Demo2.post_members (JString "X")
           (demo_answers _ _) eq_refl eq_refl eq_refl eq_refl).
Defined.

Lemma colliding_parameter_stops_witness :
  run_loop (rt := Demo2.rt) (llm := answering Demo2.collide_text) 3 (agent 2, [])
  = (inr (StoppedOnError
            (TypeError "execute_action() got multiple values for argument"),
          1%nat),
     (agent 2, ["generate_response"; "get_state"])).
Proof.
  exact (colliding_parameter_stops (rt := Demo2.rt)
           (llm := answering Demo2.collide_text)
           (agent 2) [] Demo2.collide_text ["generate_response"; "get_state"]
           Demo2.collide_members (JString "X") 3
           eq_refl (demo_answers _ _) eq_refl eq_refl eq_refl).
Defined.

Lemma non_object_answer_stops_witness :
  run_loop (rt := Demo2.rt) (llm := answering Demo2.list_text) 3 (agent 2, [])
  = (inr (StoppedOnError
            (TypeError "'str' object cannot be interpreted as an integer"),
          1%nat),
     (agent 2, ["generate_response"; "get_state"])).
Proof.
  apply (non_object_answer_stops (rt := Demo2.rt)
           (llm := answering Demo2.list_text)
           (agent 2) [] Demo2.list_text ["generate_response"; "get_state"]
           (JList [JInt 1; JInt 2]) 3 eq_refl (demo_answers _ _) eq_refl).
  intros members. discriminate.
Defined.

Lemma undecodable_answer_stops_witness :
  run_loop (rt := Demo2.rt) (llm := answering "not json") 3 (agent 2, [])
  = (inr (StoppedOnError
            (ValueError "LLM response was not in the expected JSON format"),
          1%nat),
     (agent 2, ["generate_response"; "get_state"]))
  /\ run_loop (rt := Demo2.rt) (llm := answering deep_text) 3 (agent 2, [])
     = (inr (StoppedOnError too_deep, 1%nat),
        (agent 2, ["generate_response"; "get_state"])).
Proof.
  split.
  - exact (undecodable_answer_stops (rt := Demo2.rt)
             (llm := answering "not json")
             (agent 2) [] "not json" ["generate_response"; "get_state"]
             (JSONDecodeError "Expecting value: line 1 column 1 (char 0)") 3
             eq_refl (demo_answers _ _) eq_refl).
  - apply (undecodable_answer_stops (rt := Demo2.rt)
             (llm := answering deep_text)
             (agent 2) [] deep_text ["generate_response"; "get_state"]
             too_deep 3 eq_refl (demo_answers _ _)).
    vm_compute. reflexivity.
Defined.

Lemma unregistered_answer_stops_witness :
  run_loop (rt := Demo2.rt) (llm := answering nonexistent_text) 3 (agent 2, [])
  = (inr (StoppedOnFailure "Action 'nonexistent' not found", 1%nat),
     (agent 2, ["generate_response"; "get_state"])).
Proof.
  exact (unregistered_answer_stops (rt := Demo2.rt)
           (llm := answering nonexistent_text)
           (agent 2) [] nonexistent_text ["generate_response"; "get_state"]
           [("action", JString "nonexistent")] "nonexistent" 3
           eq_refl (demo_answers _ _) eq_refl eq_refl eq_refl eq_refl eq_refl).
Defined.

Lemma failing_handler_stops_witness :
  run_loop (rt := Demo2.rt) (llm := answering Demo2.broken_text) 3 (agent 2, [])
  = (inr (StoppedOnFailure "Action failed: no hands", 1%nat),
     (agent 2, ["broken"; "generate_response"; "get_state"]))
  /\ run_loop (rt := Demo2.rt) (llm := answering Demo2.mute_text) 3 (agent 2, [])
     = (inr (StoppedOnError (Thrown "RuntimeError" true "no words"), 1%nat),
        (agent 2, ["mute"; "generate_response"; "get_state"])).
Proof.
  split.
  - exact (failing_handler_stops (rt := Demo2.rt)
             (llm := answering Demo2.broken_text)
             (agent 2) [] Demo2.broken_text ["generate_response"; "get_state"]
             [("action", JString "broken")] "broken" (plain_action broken)
             (Thrown "RuntimeError" true "no hands")
             ["broken"; "generate_response"; "get_state"] 3
             eq_refl (demo_answers _ _) eq_refl eq_refl eq_refl eq_refl eq_refl
             eq_refl eq_refl).
  - exact (failing_handler_stops (rt := Demo2.rt)
             (llm := answering Demo2.mute_text)
             (agent 2) [] Demo2.mute_text ["generate_response"; "get_state"]
             [("action", JString "mute")] "mute" (plain_action mute)
             unspeakable
             ["mute"; "generate_response"; "get_state"] 3
             eq_refl (demo_answers _ _) eq_refl eq_refl eq_refl eq_refl eq_refl
             eq_refl eq_refl).
Defined.


Lemma single_pass_completes_witness :
  exists entry,
    records entry
      (mkExecution (JString "X") [("content", JString "hi")]
         (JString "because") "x")
    /\ run_loop (rt := Demo2.rt) (llm := answering Demo2.post_text) 1
         (agent 2, [])
       = (inr (Completed, 1%nat),
          (set_history (agent 2) [entry],
           ["x"; "generate_response"; "get_state"])).
Proof.
  exact (single_pass_completes (rt := Demo2.rt)
           (llm := answering Demo2.post_text)
           (agent 2) [] Demo2.post_text ["generate_response"; "get_state"]
           Demo2.post_members "X" (plain_action (echo "x")) "x"
           ["x"; "generate_response"; "get_state"]
           (demo_answers _ _) eq_refl eq_refl eq_refl eq_refl eq_refl eq_refl).
Defined.

Lemma after_wave_names_registered : names_registered (after_wave 2).
Proof.
  repeat constructor. exists "wave". split; [reflexivity|].
  eexists. reflexivity.
Qed.

Lemma history_names_stay_registered_witness :
  names_registered (after_wave 2)
  /\ names_registered
       (fst (snd (register_action "wave" broken "breaks" [] []
                    (after_wave 2, []))))
  /\ names_registered
       (fst (snd (execute_action (JString "X") (JString EmptyString) []
                    (after_wave 2, []))))
  /\ names_registered
       (fst (snd (run_loop (llm := answering wave_text) 3 (after_wave 2, [])))).
Proof.
  destruct (history_names_stay_registered (llm := answering wave_text)
              (after_wave 2) [] after_wave_names_registered)
    as (Hreg & Hex & Hrun).
  split; [exact after_wave_names_registered|].
  split; [apply Hreg|]. split; [apply Hex | apply Hrun].
Defined.

Lemma history_never_shrinks_witness :
  (3 <= length (action_history
                  (fst (snd (execute_action (JString "X") (JString EmptyString)
                               [] (Demo2.stamped_agent 2, []))))))%nat
  /\ length (history_after (Demo2.stamped_agent 2) (JString "X")
               (JString EmptyString) [] "x")
     = 3%nat.
Proof.
  destruct (history_never_shrinks (llm := answering wave_text)
              (Demo2.stamped_agent 2) []) as (Hex & _ & Hlen).
  split; [apply Hex | apply Hlen; simpl; lia].
Defined.

Lemma nothing_is_remembered_witness :
  action_history
    (fst (snd (execute_action (JString "X") (JString EmptyString) []
                 (agent 0, [])))) = []
  /\ action_history
       (fst (snd (run_loop (llm := answering wave_text) 3 (agent 0, [])))) = [].
Proof.
  destruct (nothing_is_remembered (llm := answering wave_text) (agent 0) []
              ltac:(simpl; lia) eq_refl) as (Hex & Hrun).
  split; [apply Hex | apply Hrun].
Defined.

Lemma one_execution_per_run_witness :
  (forall steps s',
      run_loop (llm := answering wave_text) 3 (agent 2, [])
      = (inr (Completed, steps), s') ->
      (steps <= 1)%nat /\ 3 <= 1)
  /\ (fst (snd (run_loop (llm := answering wave_text) 3 (agent 2, [])))
      = agent 2
      \/ exists action_name reasoning kwargs v,
           fst (snd (run_loop (llm := answering wave_text) 3 (agent 2, [])))
           = set_history (agent 2)
               (history_after (agent 2) action_name reasoning kwargs v)).
Proof.
  exact (one_execution_per_run (llm := answering wave_text) (agent 2) [] 3
           eq_refl (Forall_nil_2 _)).
Defined.

Lemma non_string_action_name_witness :
  execute_action (JList []) (JString EmptyString) [] (agent 2, [])
  = (inl (TypeError "unhashable type: 'list'"), (agent 2, []))
  /\ execute_action (JInt 3) (JString EmptyString) [] (agent 2, [])
     = (inr (mkActionResult false "Action '3' not found" None), (agent 2, [])).
Proof.
  split.
  - apply (non_string_action_name (agent 2) [] (JList []) (JString EmptyString) []).
    intros s. discriminate.
  - apply (non_string_action_name (agent 2) [] (JInt 3) (JString EmptyString) []).
    intros s. discriminate.
Defined.

Lemma default_template_loop_stops_witness :
  exists e w', forall llm : LLMProvider World,
    run_loop (llm := llm) 3 (default_agent, [])
    = if is_Exception e
      then (match exn_str e with
            | inr _ => inr (StoppedOnError e, 1%nat)
            | inl raised => inl raised
            end,
            (default_agent, w'))
      else (inl e, (default_agent, w')).
Proof.
  exact (default_template_loop_stops (env := env) (rt := rt) default_agent [] 3
           eq_refl eq_refl).
Defined.

Lemma shipped_providers_are_never_reached_witness :
  get_next_action (llm := ClaudeLLM Demo2.client)
    (JObject [("followers", JInt 7)]) (agent 2, ["get_state"])
  = (inl missing_model, (agent 2, ["get_state"]))
  /\ get_next_action (llm := OpenAILLM Demo2.client)
       (JObject [("followers", JInt 7)]) (agent 2, ["get_state"])
     = (inl missing_model, (agent 2, ["get_state"]))
  /\ run_loop (llm := ClaudeLLM Demo2.client) 3 (agent 2, [])
     = (inr (StoppedOnError missing_model, 1%nat), (agent 2, ["get_state"]))
  /\ run_loop (llm := OpenAILLM Demo2.client) 3 (agent 2, [])
     = (inr (StoppedOnError missing_model, 1%nat), (agent 2, ["get_state"])).
Proof.
  exact (shipped_providers_are_never_reached (env := env) (rt := rt)
           (agent 2) [] Demo2.client (JObject [("followers", JInt 7)])
           ["get_state"] "World: a quiet room" ["get_state"]
           "{'followers': 7} / No previous actions taken." 3
           eq_refl eq_refl eq_refl eq_refl).
Defined.

Lemma stamped_history_renders_witness :
  _format_action_history (Demo2.stamped_agent 2, [])
  = (inr ("- Y (2): why" +:+ nl +:+ "  Result: Y" +:+ nl +:+
          "- Z (3): why" +:+ nl +:+ "  Result: Z"),
     (Demo2.stamped_agent 2, []))
  /\ length (window 2 [Demo2.stamp 1 "X"; Demo2.stamp 2 "Y"; Demo2.stamp 3 "Z"])
     = 2%nat.
Proof.
  apply (stamped_history_renders (env := env) (rt := rt)
           (Demo2.stamped_agent 2) []
           [Demo2.stamp 1 "X"; Demo2.stamp 2 "Y"; Demo2.stamp 3 "Z"]).
  - reflexivity.
  - discriminate.
  - reflexivity.
Defined.

Lemma stamped_history_unbounded_witness :
  _format_action_history (Demo2.stamped_agent 0, [])
  = (inr ("- X (1): why" +:+ nl +:+ "  Result: X" +:+ nl +:+
          "- Y (2): why" +:+ nl +:+ "  Result: Y" +:+ nl +:+
          "- Z (3): why" +:+ nl +:+ "  Result: Z"),
     (Demo2.stamped_agent 0, []))
  /\ _format_action_history (Demo2.stamped_agent (-1), [])
     = (inr ("- Y (2): why" +:+ nl +:+ "  Result: Y" +:+ nl +:+
             "- Z (3): why" +:+ nl +:+ "  Result: Z"),
        (Demo2.stamped_agent (-1), [])).
Proof.
  split.
  - exact (proj2 (stamped_history_unbounded (env := env) (rt := rt)
                    (Demo2.stamped_agent 0) []
                    [Demo2.stamp 1 "X"; Demo2.stamp 2 "Y"; Demo2.stamp 3 "Z"]
                    eq_refl ltac:(discriminate) ltac:(simpl; lia)) eq_refl).
  - exact (proj1 (stamped_history_unbounded (env := env) (rt := rt)
                    (Demo2.stamped_agent (-1)) []
                    [Demo2.stamp 1 "X"; Demo2.stamp 2 "Y"; Demo2.stamp 3 "Z"]
                    eq_refl ltac:(discriminate) ltac:(simpl; lia))).
Defined.

Lemma user_pieces_fit :
  Forall (fits [ ("state", "{}");
                 ("action_history", "No previous actions taken.") ])
    Demo2.user_pieces.
Proof.
  unfold Demo2.user_pieces.
  repeat (apply List.Forall_cons;
          [ cbn [fits];
            first [ reflexivity | split; [reflexivity | eexists; reflexivity] ]
          | ]).
  apply List.Forall_nil.
Qed.

Lemma user_prompt_builds_witness :
  build_user_prompt (JObject []) (Demo2.pieces_agent, [])
  = (inr ("State: {}" +:+ nl +:+ "History: No previous actions taken.."),
     (Demo2.pieces_agent, [])).
Proof.
  exact (user_prompt_builds (env := env) (rt := rt) Demo2.pieces_agent []
           (JObject []) "{}" Demo2.user_pieces eq_refl eq_refl eq_refl
           user_pieces_fit).
Defined.

Lemma forgetful_loop_completes_witness :
  exists w',
    run_loop (llm := answering wave_text) 3 (agent 0, [])
    = (inr (Completed, 3%nat), (agent 0, w'))
    /\ exists k, w' = Demo2.waved k.
Proof.
  apply (forgetful_loop_completes (llm := answering wave_text) (agent 0) [] 3
           (fun w => exists k, w = Demo2.waved k)).
  - simpl. lia.
  - reflexivity.
  - exists 0%nat. reflexivity.
  - intros w1 [k ->].
    exists (ok_result "waved"),
      (agent 0, "wave" :: "generate_response" :: "get_state" :: Demo2.waved k).
    split; [reflexivity|]. split; [reflexivity|].
    exists (S k). reflexivity.
Defined.

End MoreRuns.

Section TwitterRuns.
Import TwitterEnv DemoTwitter.

Lemma sixty_seconds_fit : duration_fits (init 60).
Proof. unfold duration_fits. vm_compute. discriminate. Qed.

Lemma too_many_seconds : ~ duration_fits (init 1000000000000000).
Proof. unfold duration_fits. vm_compute. intros H. apply H. reflexivity. Qed.

Lemma fetched_state_is_served_again_witness :
  get_state (init 60) (0, [])
  = (inr (state_of values),
     (set_cache (init 60) (state_of values) 0, (30000000, ["fetch"])))
  /\ get_state (set_cache (init 60) (state_of values) 0) (30000000, ["fetch"])
     = (inr (state_of values),
        (set_cache (init 60) (state_of values) 0, (60000000, ["fetch"]))).
Proof.
  pose proof (fetched_state_is_served_again (init 60) (0, []) 0 (30000000, [])
                values (30000000, ["fetch"]) 30000000 (60000000, ["fetch"])
                sixty_seconds_fit eq_refl eq_refl eq_refl eq_refl) as H.
  cbv zeta in H. destruct H as (H1 & H2 & _).
  split; [exact H1 | apply H2; reflexivity].
Defined.


Lemma oversized_duration_raises_witness :
  get_state (init 1000000000000000) (0, [])
  = (inr (state_of values),
     (set_cache (init 1000000000000000) (state_of values) 0,
      (30000000, ["fetch"])))
  /\ get_state (set_cache (init 1000000000000000) (state_of values) 0)
       (30000000, ["fetch"])
     = (inl (Thrown "OverflowError" true "days out of range for timedelta"),
        (set_cache (init 1000000000000000) (state_of values) 0,
         (60000000, ["fetch"]))).
Proof.
  pose proof (oversized_duration_raises (init 1000000000000000) (0, []) 0
                (30000000, []) values (30000000, ["fetch"])
                too_many_seconds eq_refl eq_refl eq_refl) as H.
  cbv zeta in H. destruct H as (H1 & H2).
  split; [exact H1 | exact (H2 (30000000, ["fetch"]))].
Defined.


Lemma twitter_state_is_not_awaitable_witness :
  run_loop (H := TwitterEnv_environment) (rt := rt) (llm := llm) 3
    (agent, (init 60, (0, [])))
  = (inr (StoppedOnError not_awaitable, 1%nat),
     (agent,
      (set_cache (init 60) (state_of values) 0, (30000000, ["fetch"])))).
Proof.
  exact (twitter_state_is_not_awaitable (rt := rt) (llm := llm)
           agent (init 60) (0, []) 3 eq_refl).
Defined.

End TwitterRuns.
